(** * INTake-to-Insight: the overlay and version-history engine

    A shallow embedding of the overlay store, the drag handlers and the
    export compositor of [src/components/DashboardCanvas.tsx], and of the
    history handlers of [src/components/Editor.tsx]; then of the rest of
    those two components (placing and deleting, comments, loading and
    saving a project) and of what they call in [src/lib/db.ts] and
    [src/lib/gemini.ts].

    Conventions of the embedding.
    - A React component's [useState] cells and [useRef] boxes are the fields
      of one state record; an event handler is a function from the state
      (as the handler's closure sees it) to the state after the handler's
      [set...] calls.  A handler that [return]s early, or that does not call
      [onUpdateAnnotations], gives back the annotation list it was given.
    - A JavaScript [number] that holds an index is a [Z] ([findIndex]
      answers [-1]).  A [number] that holds a coordinate, a percentage or a
      font size is an exact rational [Q]: rounding error of IEEE doubles is
      not modelled.
    - Arrays are lists, read with [!!] and written with [<[i:=x]>]. *)

From Stdlib Require Import QArith Qround Qminmax Qabs Lqa Ascii.
From stdpp Require Import base tactics option list strings pretty gmap sorting.

Local Open Scope Z_scope.

(** ** Domain entities ([src/types.ts]) *)

Inductive FontWeight := weight_normal | weight_bold.
Inductive FontStyle := style_normal | style_italic.

Module Annotation.
Record t := mk {
  id : string;
  x : Q;
  y : Q;
  text : string;
  color : string;
  fontSize : Q;
  fontWeight : option FontWeight;
  fontStyle : option FontStyle
}.
End Annotation.

Module Comment.
Record t := mk {
  id : string;
  x : Q;
  y : Q;
  text : string;
  author : string;
  resolved : bool;
  timestamp : Z
}.
End Comment.

Inductive ComplexityLevel :=
  | ExecutiveSummary | Operational | Analytical | Strategic.

Inductive VisualStyle :=
  | ModernSaaS | DarkModeAnalytics | FinancialTraditional | Minimalist
  | FuturisticHUD | PaperWireframe | Neumorphism | Isometric3D
  | HighContrast | SwissDesign | VintageTerminal | CyberpunkNeon
  | HandDrawnSketch | CorporateClean | DataJournalism | Glassmorphism.

Module GeneratedImage.
Record t := mk {
  id : string;
  data : string;
  prompt : string;
  timestamp : Z;
  level : ComplexityLevel;
  style : VisualStyle
}.
End GeneratedImage.

(** ** JavaScript array primitives *)

(** [arr.findIndex(p)]: the index of the first element that satisfies [p],
    [-1] when there is none. *)
Fixpoint findIndex_from {A} (p : A → bool) (l : list A) (i : Z) : Z :=
  match l with
  | [] => -1
  | a :: l' => if p a then i else findIndex_from p l' (i + 1)
  end.

Definition findIndex {A} (p : A → bool) (l : list A) : Z :=
  findIndex_from p l 0.

(** No element of [l] satisfies [p]. *)
Definition misses {A} (p : A → bool) (l : list A) : Prop :=
  Forall (λ a, p a = false) l.

(** [arr[i]] for a number [i]: [undefined] ([None]) outside [0 .. length-1]. *)
Definition at_index {A} (l : list A) (i : Z) : option A :=
  if 0 <=? i then l !! Z.to_nat i else None.

(** [a.id === id] on annotations. *)
Definition has_id (id : string) (a : Annotation.t) : bool :=
  String.eqb (Annotation.id a) id.

(** ** Z-order operations ([DashboardCanvas.tsx], lines 87-131)

    Each takes the [annotations] prop and answers the list the parent holds
    afterwards: the argument of [onUpdateAnnotations], or the unchanged list
    on an early [return]. *)

Definition bringToFront (id : string) (annotations : list Annotation.t)
  : list Annotation.t :=
  let index := findIndex (has_id id) annotations in
  if (index =? -1) || (index =? Z.of_nat (length annotations) - 1)
  then annotations
  else
    (* const [item] = newAnns.splice(index, 1); newAnns.push(item) *)
    match at_index annotations index with
    | Some item => delete (Z.to_nat index) annotations ++ [item]
    | None => annotations (* not reached: [index] is a valid position *)
    end.

Definition moveForward (id : string) (annotations : list Annotation.t)
  : list Annotation.t :=
  let index := findIndex (has_id id) annotations in
  if (index =? -1) || (index =? Z.of_nat (length annotations) - 1)
  then annotations
  else
    (* [newAnns[index], newAnns[index + 1]] = [newAnns[index + 1], newAnns[index]] *)
    match at_index annotations (index + 1), at_index annotations index with
    | Some upper, Some item =>
        <[Z.to_nat (index + 1) := item]> (<[Z.to_nat index := upper]> annotations)
    | _, _ => annotations (* not reached *)
    end.

Definition moveBackward (id : string) (annotations : list Annotation.t)
  : list Annotation.t :=
  let index := findIndex (has_id id) annotations in
  if index <=? 0
  then annotations
  else
    (* [newAnns[index], newAnns[index - 1]] = [newAnns[index - 1], newAnns[index]] *)
    match at_index annotations (index - 1), at_index annotations index with
    | Some lower, Some item =>
        <[Z.to_nat (index - 1) := item]> (<[Z.to_nat index := lower]> annotations)
    | _, _ => annotations (* not reached *)
    end.

Definition sendToBack (id : string) (annotations : list Annotation.t)
  : list Annotation.t :=
  let index := findIndex (has_id id) annotations in
  if (index =? -1) || (index =? 0)
  then annotations
  else
    (* const [item] = newAnns.splice(index, 1); newAnns.unshift(item) *)
    match at_index annotations index with
    | Some item => item :: delete (Z.to_nat index) annotations
    | None => annotations (* not reached *)
    end.

(** ** Field updates and removal ([DashboardCanvas.tsx], lines 327-334) *)

(** [Partial<Annotation>]: [None] is a field the object literal does not
    name.  The two optional fields of [Annotation] may be named with the
    value [undefined], hence the nested option. *)
Module AnnotationUpdates.
Record t := mk {
  id : option string;
  x : option Q;
  y : option Q;
  text : option string;
  color : option string;
  fontSize : option Q;
  fontWeight : option (option FontWeight);
  fontStyle : option (option FontStyle)
}.
End AnnotationUpdates.

(** The object spread [{ ...a, ...updates }]. *)
Definition spread (a : Annotation.t) (updates : AnnotationUpdates.t)
  : Annotation.t :=
  {| Annotation.id := default (Annotation.id a) (AnnotationUpdates.id updates);
     Annotation.x := default (Annotation.x a) (AnnotationUpdates.x updates);
     Annotation.y := default (Annotation.y a) (AnnotationUpdates.y updates);
     Annotation.text :=
       default (Annotation.text a) (AnnotationUpdates.text updates);
     Annotation.color :=
       default (Annotation.color a) (AnnotationUpdates.color updates);
     Annotation.fontSize :=
       default (Annotation.fontSize a) (AnnotationUpdates.fontSize updates);
     Annotation.fontWeight :=
       default (Annotation.fontWeight a) (AnnotationUpdates.fontWeight updates);
     Annotation.fontStyle :=
       default (Annotation.fontStyle a) (AnnotationUpdates.fontStyle updates) |}.

Definition updateAnnotation (id : string) (updates : AnnotationUpdates.t)
    (annotations : list Annotation.t) : list Annotation.t :=
  (λ a, if has_id id a then spread a updates else a) <$> annotations.

(** The object spread [{ ...a, x: x', y: y' }] of [handlePointerUp]. *)
Definition with_position (a : Annotation.t) (x' y' : Q) : Annotation.t :=
  {| Annotation.id := Annotation.id a;
     Annotation.x := x';
     Annotation.y := y';
     Annotation.text := Annotation.text a;
     Annotation.color := Annotation.color a;
     Annotation.fontSize := Annotation.fontSize a;
     Annotation.fontWeight := Annotation.fontWeight a;
     Annotation.fontStyle := Annotation.fontStyle a |}.

(** The label [handleImageClick] creates with the text tool (lines
    298-306); [id] is [Date.now().toString()]. *)
Definition newAnnotation (id : string) (x y : Q) : Annotation.t :=
  {| Annotation.id := id;
     Annotation.x := x;
     Annotation.y := y;
     Annotation.text := "New Text";
     Annotation.color := "#1e3a8a";
     Annotation.fontSize := 20;
     Annotation.fontWeight := Some weight_bold;
     Annotation.fontStyle := None |}.

(** The annotations of every id but [id], in list order. *)
Definition others (id : string) (annotations : list Annotation.t)
  : list Annotation.t :=
  filter (λ a, has_id id a = false) annotations.

(** ** The canvas component's state ([DashboardCanvas.tsx], lines 32-68) *)

Inductive Tool := tool_none | tool_text | tool_comment.

Module Point.
Record t := mk { x : Q; y : Q }.
End Point.

Module LocalDrag.
Record t := mk { id : string; x : Q; y : Q }.
End LocalDrag.

Module Rect.
Record t := mk { width : Q; height : Q; left : Q; top : Q }.
End Rect.

Module PointerEvent.
Record t := mk { clientX : Q; clientY : Q; pointerId : Z }.
End PointerEvent.

Module Canvas.
Record state := mk {
  image : GeneratedImage.t;                 (* prop *)
  annotations : list Annotation.t;          (* prop, written by onUpdateAnnotations *)
  comments : list Comment.t;                (* prop, written by onUpdateComments *)
  activeTool : Tool;
  selectedAnnotationId : option string;
  isDragging : bool;
  dragStart : Point.t;
  initialAnnPos : Point.t;
  localDragState : option LocalDrag.t;
  dragRectRef : option Rect.t
}.
End Canvas.

Definition GRID_SIZE : Q := 10%Q.

(** Truthiness of a [string | null]: [null] and the empty string are falsy. *)
Definition truthy (s : option string) : bool :=
  match s with
  | Some s => negb (String.eqb s "")
  | None => false
  end.

(** [Math.round]: the nearest integer, a tie going up. *)
Definition Math_round (q : Q) : Z := Qfloor (q + (1 # 2))%Q.

(** [Math.max(0, Math.min(100, v))]. *)
Definition clamp_percent (v : Q) : Q := Qmax 0%Q (Qmin 100%Q v).

Definition snap (raw : Q) : Q :=
  (inject_Z (Math_round (raw / GRID_SIZE)) * GRID_SIZE)%Q.

Definition deleteAnnotation (id : string) (st : Canvas.state) : Canvas.state :=
  {| Canvas.image := Canvas.image st;
     Canvas.annotations :=
       filter (λ a, negb (has_id id a)) (Canvas.annotations st);
     Canvas.comments := Canvas.comments st;
     Canvas.activeTool := Canvas.activeTool st;
     Canvas.selectedAnnotationId := None;
     Canvas.isDragging := Canvas.isDragging st;
     Canvas.dragStart := Canvas.dragStart st;
     Canvas.initialAnnPos := Canvas.initialAnnPos st;
     Canvas.localDragState := Canvas.localDragState st;
     Canvas.dragRectRef := Canvas.dragRectRef st |}.

(** ** Dragging with pointer events ([DashboardCanvas.tsx], lines 210-280)

    [container] is [imageContainerRef.current]'s bounding rectangle, [None]
    when the ref is empty. *)

Definition handlePointerDown (e : PointerEvent.t) (id : string)
    (container : option Rect.t) (st : Canvas.state) : Canvas.state :=
  match Canvas.activeTool st, container with
  | tool_none, Some rect =>
      match List.find (has_id id) (Canvas.annotations st) with
      | None => st
      | Some ann =>
          {| Canvas.image := Canvas.image st;
             Canvas.annotations := Canvas.annotations st;
             Canvas.comments := Canvas.comments st;
             Canvas.activeTool := Canvas.activeTool st;
             Canvas.selectedAnnotationId := Some id;
             Canvas.isDragging := true;
             Canvas.dragStart :=
               Point.mk (PointerEvent.clientX e) (PointerEvent.clientY e);
             Canvas.initialAnnPos :=
               Point.mk (Annotation.x ann) (Annotation.y ann);
             Canvas.localDragState :=
               Some (LocalDrag.mk id (Annotation.x ann) (Annotation.y ann));
             Canvas.dragRectRef := Some rect |}
      end
  | _, _ => st
  end.

(** The position [handlePointerMove] computes on one axis: [initial] is
    the percentage at drag start, [size] the cached extent of the
    container, [client] and [start] the pointer's coordinate now and at
    drag start. *)
Definition raw_pixel (initial size client start : Q) : Q :=
  ((initial / 100) * size + (client - start))%Q.

Definition live_percent (initial size client start : Q) : Q :=
  clamp_percent ((snap (raw_pixel initial size client start) / size) * 100)%Q.

Definition handlePointerMove (e : PointerEvent.t) (st : Canvas.state)
  : Canvas.state :=
  match Canvas.isDragging st, Canvas.selectedAnnotationId st,
        Canvas.dragRectRef st with
  | true, Some sel, Some rect =>
      if negb (truthy (Some sel)) then st
      else
        let newX :=
          live_percent (Point.x (Canvas.initialAnnPos st)) (Rect.width rect)
            (PointerEvent.clientX e) (Point.x (Canvas.dragStart st)) in
        let newY :=
          live_percent (Point.y (Canvas.initialAnnPos st)) (Rect.height rect)
            (PointerEvent.clientY e) (Point.y (Canvas.dragStart st)) in
        {| Canvas.image := Canvas.image st;
           Canvas.annotations := Canvas.annotations st;
           Canvas.comments := Canvas.comments st;
           Canvas.activeTool := Canvas.activeTool st;
           Canvas.selectedAnnotationId := Canvas.selectedAnnotationId st;
           Canvas.isDragging := Canvas.isDragging st;
           Canvas.dragStart := Canvas.dragStart st;
           Canvas.initialAnnPos := Canvas.initialAnnPos st;
           Canvas.localDragState := Some (LocalDrag.mk sel newX newY);
           Canvas.dragRectRef := Canvas.dragRectRef st |}
  | _, _, _ => st
  end.

(** The list [handlePointerUp] hands to [onUpdateAnnotations], or the
    untouched list when its guard fails. *)
Definition committed (st : Canvas.state) : list Annotation.t :=
  match Canvas.isDragging st, Canvas.localDragState st,
        Canvas.selectedAnnotationId st with
  | true, Some live, Some sel =>
      if truthy (Some sel) then
        (λ a, if has_id sel a
              then with_position a (LocalDrag.x live) (LocalDrag.y live)
              else a) <$> Canvas.annotations st
      else Canvas.annotations st
  | _, _, _ => Canvas.annotations st
  end.

Definition handlePointerUp (e : PointerEvent.t) (st : Canvas.state)
  : Canvas.state :=
  {| Canvas.image := Canvas.image st;
     Canvas.annotations := committed st;
     Canvas.comments := Canvas.comments st;
     Canvas.activeTool := Canvas.activeTool st;
     Canvas.selectedAnnotationId := Canvas.selectedAnnotationId st;
     Canvas.isDragging := false;
     Canvas.dragStart := Canvas.dragStart st;
     Canvas.initialAnnPos := Canvas.initialAnnPos st;
     Canvas.localDragState := None;
     Canvas.dragRectRef := None |}.

(** The pointer handlers an annotation's element is wired to (lines
    412-415): [onPointerCancel] is given [handlePointerUp]. *)
Inductive PointerGesture :=
  | onPointerDown (e : PointerEvent.t) (id : string) (container : option Rect.t)
  | onPointerMove (e : PointerEvent.t)
  | onPointerUp (e : PointerEvent.t)
  | onPointerCancel (e : PointerEvent.t).

Definition dispatch (g : PointerGesture) (st : Canvas.state) : Canvas.state :=
  match g with
  | onPointerDown e id container => handlePointerDown e id container st
  | onPointerMove e => handlePointerMove e st
  | onPointerUp e => handlePointerUp e st
  | onPointerCancel e => handlePointerUp e st
  end.

(** ** Export compositor ([DashboardCanvas.tsx], lines 134-206) *)

(** A promise as the code that awaits it sees it: it fulfils with a value,
    rejects with an error, or never settles. *)
Module JsError.
Record t := mk { message : option string }.
End JsError.

Inductive Settled (A : Type) :=
  | Fulfilled (a : A)
  | Threw (err : JsError.t)
  | Never.
Arguments Fulfilled {A} a.
Arguments Threw {A} err.
Arguments Never {A}.

(** [ctx.font]: the template of line 163, [sans-serif] understood. *)
Module Font.
Record t := mk { style : FontStyle; weight : FontWeight; px : Q }.
End Font.

(** What a 2D context is asked to paint, in call order. *)
Inductive CanvasOp :=
  | fillRect (fillStyle : string) (x y w h : Q)
  | drawImage (src : string) (dx dy : Q)
  | fillText (font : Font.t) (fillStyle textBaseline textAlign text : string)
      (x y : Q).

Module HTMLCanvasElement.
Record t := mk { width : Z; height : Z; painted : list CanvasOp }.
End HTMLCanvasElement.

(** [img.naturalWidth] and [img.naturalHeight] once [onload] has fired. *)
Module NaturalSize.
Record t := mk { naturalWidth : Z; naturalHeight : Z }.
End NaturalSize.

Definition REFERENCE_WIDTH : Q := 800%Q.
Definition MIN_EXPORT_FONT : Q := 12%Q.

(** The body of the [annotations.forEach] callback. *)
Definition export_font_size (ann : Annotation.t) (canvas_width : Z) : Q :=
  let scaleFactor := (inject_Z canvas_width / REFERENCE_WIDTH)%Q in
  Qmax MIN_EXPORT_FONT (Annotation.fontSize ann * scaleFactor)%Q.

Definition draw_annotation (canvas_width canvas_height : Z)
    (ann : Annotation.t) : CanvasOp :=
  let x := ((Annotation.x ann / 100) * inject_Z canvas_width)%Q in
  let y := ((Annotation.y ann / 100) * inject_Z canvas_height)%Q in
  fillText
    (Font.mk (default style_normal (Annotation.fontStyle ann))
             (default weight_normal (Annotation.fontWeight ann))
             (export_font_size ann canvas_width))
    (Annotation.color ann) "middle" "center" (Annotation.text ann) x y.

(** [has_context] is whether [canvas.getContext('2d')] answered a context;
    [loaded] is the decoded image, [None] when [onload] never fires (the
    awaited promise has no rejection path). *)
Definition generateCanvas (fillBackground : bool) (has_context : bool)
    (loaded : option NaturalSize.t) (st : Canvas.state)
  : Settled HTMLCanvasElement.t :=
  if negb has_context
  then Threw (JsError.mk (Some "Could not get canvas context"))
  else
    match loaded with
    | None => Never
    | Some img =>
        let width := NaturalSize.naturalWidth img in
        let height := NaturalSize.naturalHeight img in
        let background :=
          if fillBackground
          then [fillRect "#ffffff" 0 0 (inject_Z width) (inject_Z height)]
          else [] in
        Fulfilled
          (HTMLCanvasElement.mk width height
             (background
              ++ drawImage (GeneratedImage.data (Canvas.image st)) 0 0
              :: (draw_annotation width height <$> Canvas.annotations st)))
    end.

Inductive ExportFormat := png | jpg | pdf.

Definition withBackground (format : ExportFormat) : bool :=
  match format with
  | png => false
  | jpg | pdf => true
  end.

Definition mimeType (format : ExportFormat) : string :=
  match format with
  | jpg => "image/jpeg"
  | png | pdf => "image/png"
  end.

(** What [handleExport] leaves behind: a download, a print window (when
    [window.open] answered one), the alert of its [catch], or nothing. *)
Inductive ExportEffect :=
  | Download (name mime : string) (canvas : HTMLCanvasElement.t)
  | PrintWindow (mime : string) (canvas : HTMLCanvasElement.t)
  | Alert (message : string)
  | NoEffect.

Definition handleExport (format : ExportFormat) (has_context : bool)
    (loaded : option NaturalSize.t) (window_opened : bool) (st : Canvas.state)
  : ExportEffect :=
  match generateCanvas (withBackground format) has_context loaded st with
  | Fulfilled canvas =>
      match format with
      | pdf =>
          if window_opened then PrintWindow (mimeType format) canvas
          else NoEffect
      | png => Download "dashboard_export.png" (mimeType format) canvas
      | jpg => Download "dashboard_export.jpg" (mimeType format) canvas
      end
  | Threw _ => Alert "Could not export image."
  | Never => NoEffect
  end.

(** The canvas an export effect carries, if any. *)
Definition exported_canvas (eff : ExportEffect) : option HTMLCanvasElement.t :=
  match eff with
  | Download _ _ canvas | PrintWindow _ canvas => Some canvas
  | Alert _ | NoEffect => None
  end.

(** ** The editor's history ([Editor.tsx], lines 40-42 and 147-250) *)

Module AnalysisResult.
Record t := mk {
  dashboardStrategy : string;
  kpis : list string;
  suggestedCharts : list string
}.
End AnalysisResult.

Module Editor.
Record state := mk {
  objective : string;
  level : ComplexityLevel;
  style : VisualStyle;
  isLoading : bool;
  loadingMessage : string;
  loadingStep : Z;
  analysisFacts : list string;
  error : option string;
  history : list GeneratedImage.t;
  currentIndex : Z
}.
End Editor.

(** [err.message || fallback]. *)
Definition message_or (fallback : string) (err : JsError.t) : string :=
  match JsError.message err with
  | Some m => if String.eqb m "" then fallback else m
  | None => fallback
  end.

(** The [TypeError] raised by reading [.data] of [undefined]; its text is
    the engine's. *)
Definition undefined_read : JsError.t :=
  JsError.mk (Some "Cannot read properties of undefined (reading 'data')").

Definition set_progress (step : Z) (message : string) (st : Editor.state)
  : Editor.state :=
  {| Editor.objective := Editor.objective st;
     Editor.level := Editor.level st;
     Editor.style := Editor.style st;
     Editor.isLoading := Editor.isLoading st;
     Editor.loadingMessage := message;
     Editor.loadingStep := step;
     Editor.analysisFacts := Editor.analysisFacts st;
     Editor.error := Editor.error st;
     Editor.history := Editor.history st;
     Editor.currentIndex := Editor.currentIndex st |}.

Definition set_loading (b : bool) (st : Editor.state) : Editor.state :=
  {| Editor.objective := Editor.objective st;
     Editor.level := Editor.level st;
     Editor.style := Editor.style st;
     Editor.isLoading := b;
     Editor.loadingMessage := Editor.loadingMessage st;
     Editor.loadingStep := Editor.loadingStep st;
     Editor.analysisFacts := Editor.analysisFacts st;
     Editor.error := Editor.error st;
     Editor.history := Editor.history st;
     Editor.currentIndex := Editor.currentIndex st |}.

Definition set_facts (facts : list string) (st : Editor.state)
  : Editor.state :=
  {| Editor.objective := Editor.objective st;
     Editor.level := Editor.level st;
     Editor.style := Editor.style st;
     Editor.isLoading := Editor.isLoading st;
     Editor.loadingMessage := Editor.loadingMessage st;
     Editor.loadingStep := Editor.loadingStep st;
     Editor.analysisFacts := facts;
     Editor.error := Editor.error st;
     Editor.history := Editor.history st;
     Editor.currentIndex := Editor.currentIndex st |}.

Definition set_error (err : option string) (st : Editor.state)
  : Editor.state :=
  {| Editor.objective := Editor.objective st;
     Editor.level := Editor.level st;
     Editor.style := Editor.style st;
     Editor.isLoading := Editor.isLoading st;
     Editor.loadingMessage := Editor.loadingMessage st;
     Editor.loadingStep := Editor.loadingStep st;
     Editor.analysisFacts := Editor.analysisFacts st;
     Editor.error := err;
     Editor.history := Editor.history st;
     Editor.currentIndex := Editor.currentIndex st |}.

(** [setHistory(h); setCurrentIndex(i)]. *)
Definition set_history (h : list GeneratedImage.t) (i : Z)
    (st : Editor.state) : Editor.state :=
  {| Editor.objective := Editor.objective st;
     Editor.level := Editor.level st;
     Editor.style := Editor.style st;
     Editor.isLoading := Editor.isLoading st;
     Editor.loadingMessage := Editor.loadingMessage st;
     Editor.loadingStep := Editor.loadingStep st;
     Editor.analysisFacts := Editor.analysisFacts st;
     Editor.error := Editor.error st;
     Editor.history := h;
     Editor.currentIndex := i |}.

Definition set_currentIndex (i : Z) (st : Editor.state) : Editor.state :=
  set_history (Editor.history st) i st.

(** [setStyle(s); setLevel(l)]. *)
Definition set_context (s : VisualStyle) (l : ComplexityLevel)
    (st : Editor.state) : Editor.state :=
  {| Editor.objective := Editor.objective st;
     Editor.level := l;
     Editor.style := s;
     Editor.isLoading := Editor.isLoading st;
     Editor.loadingMessage := Editor.loadingMessage st;
     Editor.loadingStep := Editor.loadingStep st;
     Editor.analysisFacts := Editor.analysisFacts st;
     Editor.error := Editor.error st;
     Editor.history := Editor.history st;
     Editor.currentIndex := Editor.currentIndex st |}.

(** The [finally] block shared by [handleGenerate] and [handleEdit]. *)
Definition finally (st : Editor.state) : Editor.state :=
  set_progress 0 (Editor.loadingMessage st) (set_loading false st).

(** A [catch] block followed by the [finally] block. *)
Definition caught (fallback : string) (err : JsError.t) (st : Editor.state)
  : Editor.state :=
  finally (set_error (Some (message_or fallback err)) st).

(** The tail common to both handlers: [setHistory(newHistory);
    setCurrentIndex(0); await saveProjectState(base64)].  [saved] is how
    the save settles; the project record it writes is outside this state. *)
Definition push_and_save (fallback : string) (newImage : GeneratedImage.t)
    (history : list GeneratedImage.t) (saved : Settled ())
    (st : Editor.state) : Editor.state :=
  let newHistory := newImage :: history in
  let st' := set_history newHistory 0 st in
  match saved with
  | Fulfilled _ => finally st'
  | Threw err => caught fallback err st'
  | Never => st'
  end.

Section Handlers.

(** [String.prototype.trim]. *)
Variable trim : string → string.

(** [handleGenerate]: [analysis], [generated] and [saved] are how the three
    awaited calls settle, [now_id] and [now_ts] the two readings of
    [Date.now()]. *)
Definition handleGenerate (analysis : Settled AnalysisResult.t)
    (generated : Settled string) (saved : Settled ()) (now_id now_ts : Z)
    (st : Editor.state) : Editor.state :=
  if Editor.isLoading st || String.eqb (trim (Editor.objective st)) ""
  then st
  else
    let st1 :=
      set_error None
        (set_facts []
           (set_progress 1 "Analyzing data schema and objective..."
              (set_loading true st))) in
    match analysis with
    | Never => st1
    | Threw err => caught "Generation failed" err st1
    | Fulfilled a =>
        let facts :=
          [ "Strategy: " +:+ AnalysisResult.dashboardStrategy a;
            "KPIs: " +:+ String.concat ", " (AnalysisResult.kpis a);
            "Visuals: "
              +:+ String.concat ", " (AnalysisResult.suggestedCharts a) ] in
        let st3 :=
          set_progress 3 "Drafting vector components (SVG)..."
            (set_progress 2 "Architecting layout and navigation..."
               (set_facts facts st1)) in
        match generated with
        | Never => st3
        | Threw err => caught "Generation failed" err st3
        | Fulfilled base64 =>
            let newImage :=
              {| GeneratedImage.id := pretty now_id;
                 GeneratedImage.data := base64;
                 GeneratedImage.prompt := Editor.objective st;
                 GeneratedImage.timestamp := now_ts;
                 GeneratedImage.level := Editor.level st;
                 GeneratedImage.style := Editor.style st |} in
            push_and_save "Generation failed" newImage (Editor.history st)
              saved
              (set_progress 4 "Finalizing interactive assets..." st3)
        end
    end.

End Handlers.

(** [handleEdit]: [edited] and [saved] are how the two awaited calls
    settle. *)
Definition handleEdit (editPrompt : string) (edited : Settled string)
    (saved : Settled ()) (now_id now_ts : Z) (st : Editor.state)
  : Editor.state :=
  if Z.of_nat (length (Editor.history st)) =? 0
  then st
  else
    let st1 :=
      set_progress 2 "Analyzing revision request..." (set_loading true st) in
    match at_index (Editor.history st) (Editor.currentIndex st) with
    | None => caught "Edit failed" undefined_read st1
    | Some current =>
        match edited with
        | Never => st1
        | Threw err => caught "Edit failed" err st1
        | Fulfilled base64 =>
            let newImage :=
              {| GeneratedImage.id := pretty now_id;
                 GeneratedImage.data := base64;
                 GeneratedImage.prompt := editPrompt;
                 GeneratedImage.timestamp := now_ts;
                 GeneratedImage.level := GeneratedImage.level current;
                 GeneratedImage.style := GeneratedImage.style current |} in
            push_and_save "Edit failed" newImage (Editor.history st) saved
              (set_progress 4 "Saving version snapshot..." st1)
        end
    end.

Definition handleJumpToHistory (index : Z) (st : Editor.state)
  : Editor.state :=
  let st' := set_currentIndex index st in
  (* Optional: Restore context from that history point if we stored it *)
  match at_index (Editor.history st) index with
  | Some entry =>
      set_context (GeneratedImage.style entry) (GeneratedImage.level entry) st'
  | None => st'
  end.

(** The props [Editor] passes to the canvas (lines 448-458) and the version
    strip's buttons ([DashboardCanvas.tsx], lines 785-806). *)
Definition canUndo (st : Editor.state) : bool :=
  Editor.currentIndex st <? Z.of_nat (length (Editor.history st)) - 1.

Definition canRedo (st : Editor.state) : bool :=
  0 <? Editor.currentIndex st.

Definition onUndo (st : Editor.state) : Editor.state :=
  handleJumpToHistory (Editor.currentIndex st + 1) st.

Definition onRedo (st : Editor.state) : Editor.state :=
  handleJumpToHistory (Editor.currentIndex st - 1) st.

(** The indices [history.map((h, i) => ...)] hands to [onJumpToHistory]. *)
Definition strip_indices (st : Editor.state) : list Z :=
  Z.of_nat <$> seq 0 (length (Editor.history st)).

(** An index names an entry of the history. *)
Definition in_range (history : list GeneratedImage.t) (index : Z) : Prop :=
  0 ≤ index < Z.of_nat (length history).

(** ** Initial states and vocabulary of the statements *)

(** The canvas as first rendered: the [useState] and [useRef] initial
    values of lines 48-65 around the given props. *)
Definition initial_canvas (image : GeneratedImage.t)
    (annotations : list Annotation.t) (comments : list Comment.t)
  : Canvas.state :=
  {| Canvas.image := image;
     Canvas.annotations := annotations;
     Canvas.comments := comments;
     Canvas.activeTool := tool_none;
     Canvas.selectedAnnotationId := None;
     Canvas.isDragging := false;
     Canvas.dragStart := Point.mk 0 0;
     Canvas.initialAnnPos := Point.mk 0 0;
     Canvas.localDragState := None;
     Canvas.dragRectRef := None |}.

(** The editor as first rendered ([Editor.tsx], lines 22-42). *)
Definition initial_editor : Editor.state :=
  {| Editor.objective := "";
     Editor.level := Operational;
     Editor.style := ModernSaaS;
     Editor.isLoading := false;
     Editor.loadingMessage := "";
     Editor.loadingStep := 0;
     Editor.analysisFacts := [];
     Editor.error := None;
     Editor.history := [];
     Editor.currentIndex := 0 |}.

Definition set_objective (objective : string) (st : Editor.state)
  : Editor.state :=
  {| Editor.objective := objective;
     Editor.level := Editor.level st;
     Editor.style := Editor.style st;
     Editor.isLoading := Editor.isLoading st;
     Editor.loadingMessage := Editor.loadingMessage st;
     Editor.loadingStep := Editor.loadingStep st;
     Editor.analysisFacts := Editor.analysisFacts st;
     Editor.error := Editor.error st;
     Editor.history := Editor.history st;
     Editor.currentIndex := Editor.currentIndex st |}.

(** The same canvas with another comment list. *)
Definition with_comments (comments : list Comment.t) (st : Canvas.state)
  : Canvas.state :=
  {| Canvas.image := Canvas.image st;
     Canvas.annotations := Canvas.annotations st;
     Canvas.comments := comments;
     Canvas.activeTool := Canvas.activeTool st;
     Canvas.selectedAnnotationId := Canvas.selectedAnnotationId st;
     Canvas.isDragging := Canvas.isDragging st;
     Canvas.dragStart := Canvas.dragStart st;
     Canvas.initialAnnPos := Canvas.initialAnnPos st;
     Canvas.localDragState := Canvas.localDragState st;
     Canvas.dragRectRef := Canvas.dragRectRef st |}.

(** A percentage back in pixels: [(value / 100) * size]. *)
Definition to_pixels (percent size : Q) : Q := ((percent / 100) * size)%Q.

(** A pixel coordinate is a whole number of grid cells. *)
Definition on_grid (pixels : Q) : Prop :=
  ∃ k : Z, (pixels == inject_Z k * GRID_SIZE)%Q.


(** One field after an update that may or may not name it. *)
Definition field_after {V} (old : V) (named : option V) (new : V) : Prop :=
  match named with
  | Some v => new = v
  | None => new = old
  end.

(** [a'] is [a] with exactly the fields [updates] names replaced. *)
Definition replaces_named (a : Annotation.t) (updates : AnnotationUpdates.t)
    (a' : Annotation.t) : Prop :=
  field_after (Annotation.id a) (AnnotationUpdates.id updates) (Annotation.id a')
  ∧ field_after (Annotation.x a) (AnnotationUpdates.x updates) (Annotation.x a')
  ∧ field_after (Annotation.y a) (AnnotationUpdates.y updates) (Annotation.y a')
  ∧ field_after (Annotation.text a) (AnnotationUpdates.text updates)
      (Annotation.text a')
  ∧ field_after (Annotation.color a) (AnnotationUpdates.color updates)
      (Annotation.color a')
  ∧ field_after (Annotation.fontSize a) (AnnotationUpdates.fontSize updates)
      (Annotation.fontSize a')
  ∧ field_after (Annotation.fontWeight a) (AnnotationUpdates.fontWeight updates)
      (Annotation.fontWeight a')
  ∧ field_after (Annotation.fontStyle a) (AnnotationUpdates.fontStyle updates)
      (Annotation.fontStyle a').


(** The update that names nothing. *)
Definition no_updates : AnnotationUpdates.t :=
  AnnotationUpdates.mk None None None None None None None None.

(** The pixel size of the font a paint call sets, for the calls that set one. *)
Definition font_px (op : CanvasOp) : option Q :=
  match op with
  | fillText font _ _ _ _ _ _ => Some (Font.px font)
  | fillRect _ _ _ _ _ | drawImage _ _ _ => None
  end.

(** ** Fixtures for the worked examples *)

Definition sample_image : GeneratedImage.t :=
  {| GeneratedImage.id := "1700000000000";
     GeneratedImage.data := "data:image/png;base64,iVBORw0KGgo=";
     GeneratedImage.prompt := "Quarterly sales overview";
     GeneratedImage.timestamp := 1700000000000;
     GeneratedImage.level := Operational;
     GeneratedImage.style := ModernSaaS |}.

(** A canvas holding the single label [ann], after a pointer-down on it
    at [down] inside a container of rectangle [rect] and one pointer-move
    to [move]. *)
Definition dragged (rect : Rect.t) (ann : Annotation.t)
    (down move : PointerEvent.t) : Canvas.state :=
  dispatch (onPointerMove move)
    (dispatch (onPointerDown down (Annotation.id ann) (Some rect))
       (initial_canvas sample_image [ann] [])).

(** ** Placing labels and comment pins ([DashboardCanvas.tsx], lines 48-54
    and 282-347) *)

Module MouseEvent.
Record t := mk { clientX : Q; clientY : Q }.
End MouseEvent.

(** The canvas together with the comment-panel cells of the component. *)
Module CanvasUI.
Record state := mk {
  canvas : Canvas.state;
  activeCommentId : option string;
  showCommentSidebar : bool
}.
End CanvasUI.

(** [onUpdateAnnotations(anns)]. *)
Definition set_annotations (anns : list Annotation.t) (st : Canvas.state)
  : Canvas.state :=
  {| Canvas.image := Canvas.image st;
     Canvas.annotations := anns;
     Canvas.comments := Canvas.comments st;
     Canvas.activeTool := Canvas.activeTool st;
     Canvas.selectedAnnotationId := Canvas.selectedAnnotationId st;
     Canvas.isDragging := Canvas.isDragging st;
     Canvas.dragStart := Canvas.dragStart st;
     Canvas.initialAnnPos := Canvas.initialAnnPos st;
     Canvas.localDragState := Canvas.localDragState st;
     Canvas.dragRectRef := Canvas.dragRectRef st |}.

(** [setSelectedAnnotationId(sel)]. *)
Definition set_selected (sel : option string) (st : Canvas.state)
  : Canvas.state :=
  {| Canvas.image := Canvas.image st;
     Canvas.annotations := Canvas.annotations st;
     Canvas.comments := Canvas.comments st;
     Canvas.activeTool := Canvas.activeTool st;
     Canvas.selectedAnnotationId := sel;
     Canvas.isDragging := Canvas.isDragging st;
     Canvas.dragStart := Canvas.dragStart st;
     Canvas.initialAnnPos := Canvas.initialAnnPos st;
     Canvas.localDragState := Canvas.localDragState st;
     Canvas.dragRectRef := Canvas.dragRectRef st |}.

(** [setActiveTool(tool)]. *)
Definition set_tool (tool : Tool) (st : Canvas.state) : Canvas.state :=
  {| Canvas.image := Canvas.image st;
     Canvas.annotations := Canvas.annotations st;
     Canvas.comments := Canvas.comments st;
     Canvas.activeTool := tool;
     Canvas.selectedAnnotationId := Canvas.selectedAnnotationId st;
     Canvas.isDragging := Canvas.isDragging st;
     Canvas.dragStart := Canvas.dragStart st;
     Canvas.initialAnnPos := Canvas.initialAnnPos st;
     Canvas.localDragState := Canvas.localDragState st;
     Canvas.dragRectRef := Canvas.dragRectRef st |}.

(** A pointer coordinate as a percentage of the container, on one axis:
    [((client - origin) / size) * 100]. *)
Definition to_percent (client origin size : Q) : Q :=
  (((client - origin) / size) * 100)%Q.

(** The pin [handleImageClick] creates with the comment tool (lines
    311-319). *)
Definition newComment (id : string) (x y : Q) (timestamp : Z) : Comment.t :=
  {| Comment.id := id;
     Comment.x := x;
     Comment.y := y;
     Comment.text := "";
     Comment.author := "You";
     Comment.resolved := false;
     Comment.timestamp := timestamp |}.

(** [handleImageClick]: [container] is the container's rectangle ([None]
    for an empty ref), [now_id] and [now_ts] the readings of [Date.now()]
    for the id and, for a comment, the timestamp. *)
Definition handleImageClick (e : MouseEvent.t) (container : option Rect.t)
    (now_id now_ts : Z) (ui : CanvasUI.state) : CanvasUI.state :=
  let st := CanvasUI.canvas ui in
  if Canvas.isDragging st then ui
  else
    match Canvas.activeTool st with
    | tool_none =>
        if truthy (Canvas.selectedAnnotationId st)
        then CanvasUI.mk (set_selected None st)
               (CanvasUI.activeCommentId ui) (CanvasUI.showCommentSidebar ui)
        else ui
    | tool =>
        match container with
        | None => ui
        | Some rect =>
            let x :=
              to_percent (MouseEvent.clientX e) (Rect.left rect)
                (Rect.width rect) in
            let y :=
              to_percent (MouseEvent.clientY e) (Rect.top rect)
                (Rect.height rect) in
            match tool with
            | tool_comment =>
                let c := newComment (pretty now_id) x y now_ts in
                CanvasUI.mk
                  (set_tool tool_none
                     (with_comments (Canvas.comments st ++ [c]) st))
                  (Some (Comment.id c)) true
            | _ =>
                let a := newAnnotation (pretty now_id) x y in
                CanvasUI.mk
                  (set_tool tool_none
                     (set_selected (Some (Annotation.id a))
                        (set_annotations (Canvas.annotations st ++ [a]) st)))
                  (CanvasUI.activeCommentId ui)
                  (CanvasUI.showCommentSidebar ui)
            end
        end
    end.

(** [c.id === id] on comments. *)
Definition comment_has_id (id : string) (c : Comment.t) : bool :=
  String.eqb (Comment.id c) id.

(** The object spread [{ ...c, text }]. *)
Definition with_text (c : Comment.t) (text : string) : Comment.t :=
  {| Comment.id := Comment.id c;
     Comment.x := Comment.x c;
     Comment.y := Comment.y c;
     Comment.text := text;
     Comment.author := Comment.author c;
     Comment.resolved := Comment.resolved c;
     Comment.timestamp := Comment.timestamp c |}.

(** The object spread [{ ...c, resolved: !c.resolved }]. *)
Definition toggled (c : Comment.t) : Comment.t :=
  {| Comment.id := Comment.id c;
     Comment.x := Comment.x c;
     Comment.y := Comment.y c;
     Comment.text := Comment.text c;
     Comment.author := Comment.author c;
     Comment.resolved := negb (Comment.resolved c);
     Comment.timestamp := Comment.timestamp c |}.

Definition updateComment (id text : string) (comments : list Comment.t)
  : list Comment.t :=
  (λ c, if comment_has_id id c then with_text c text else c) <$> comments.

Definition toggleResolveComment (id : string) (comments : list Comment.t)
  : list Comment.t :=
  (λ c, if comment_has_id id c then toggled c else c) <$> comments.


(** The sidebar's counter: [comments.filter(c => !c.resolved).length]. *)
Definition activeCount (comments : list Comment.t) : nat :=
  length (filter (λ c, negb (Comment.resolved c)) comments).

(** The sidebar's list: [[...comments].sort((a, b) => b.timestamp -
    a.timestamp)].  The sort is stable, so the result is the one
    arrangement by falling timestamp in which comments of equal timestamp
    keep their order; it is built here by inserting from the right. *)
Fixpoint insert_newest_first (c : Comment.t) (sorted : list Comment.t)
  : list Comment.t :=
  match sorted with
  | [] => [c]
  | d :: rest =>
      if Comment.timestamp c <? Comment.timestamp d
      then d :: insert_newest_first c rest
      else c :: sorted
  end.

Definition reviewList (comments : list Comment.t) : list Comment.t :=
  foldr insert_newest_first [] comments.

(** A run of pointer-move events, oldest first. *)
Definition moves (events : list PointerEvent.t) (st : Canvas.state)
  : Canvas.state :=
  foldl (λ st e, dispatch (onPointerMove e) st) st events.

(** A whole gesture on the annotation [id]: pointer-down, the moves,
    pointer-up. *)
Definition gesture (down : PointerEvent.t) (id : string)
    (container : option Rect.t) (events : list PointerEvent.t)
    (up : PointerEvent.t) (st : Canvas.state) : Canvas.state :=
  dispatch (onPointerUp up)
    (moves events (dispatch (onPointerDown down id container) st)).

(** Everything of a comment that places and dates its pin. *)
Definition pin (c : Comment.t) : string * Q * Q * string * Z :=
  (Comment.id c, Comment.x c, Comment.y c, Comment.author c,
   Comment.timestamp c).

(** [c] is listed before [d] in a list that shows the newest first. *)
Definition newer_or_same (c d : Comment.t) : Prop :=
  Comment.timestamp d ≤ Comment.timestamp c.

(** ** Projects and their store ([src/types.ts], lines 30-85;
    [src/lib/db.ts], lines 104-182) *)

Inductive DataSourceType :=
  | FILE_UPLOAD | API_REST | GOOGLE_DRIVE | DROPBOX | ONEDRIVE.

Inductive DataSourceStatus := CONNECTED | ERROR | PENDING.

Module DataSourceMeta.
Record t := mk {
  rowCount : option Z;
  fileSize : option string;
  lastSync : option Z
}.
End DataSourceMeta.

Module DataSource.
Record t := mk {
  id : string;
  type : DataSourceType;
  name : string;
  status : DataSourceStatus;
  meta : option DataSourceMeta.t
}.
End DataSource.

(** [Project.canvasState].  The two lists are optional here because
    [loadProject] reads them with [|| []]. *)
Module CanvasRecord.
Record t := mk {
  baseImage : option string;
  annotations : option (list Annotation.t);
  comments : option (list Comment.t)
}.
End CanvasRecord.

(** A stored project.  [dataSources], [canvasState] and [history] are
    optional here because [loadProject] guards each of them against being
    absent from the stored object. *)
Module Project.
Record t := mk {
  id : string;
  title : string;
  thumbnail : option string;
  createdAt : Z;
  updatedAt : Z;
  dataSources : option (list DataSource.t);
  prompt : string;
  level : ComplexityLevel;
  style : VisualStyle;
  canvasState : option CanvasRecord.t;
  history : option (list GeneratedImage.t)
}.
End Project.

(** The two object stores the editor writes, each keyed by [id].  The
    database is taken to be open and its transactions to complete; the one
    request error modelled is the key constraint of [store.add]. *)
Module Db.
Record t := mk {
  projects : gmap string Project.t;
  sources : gmap string DataSource.t
}.
End Db.

Definition ConstraintError : JsError.t :=
  JsError.mk (Some "Key already exists in the object store.").

(** [store.add(project)]: refused when the key is taken. *)
Definition createProject (project : Project.t) (db : Db.t)
  : Settled Project.t * Db.t :=
  match Db.projects db !! Project.id project with
  | Some _ => (Threw ConstraintError, db)
  | None =>
      (Fulfilled project,
       Db.mk (<[Project.id project := project]> (Db.projects db))
         (Db.sources db))
  end.

Definition getProject (id : string) (db : Db.t) : option Project.t :=
  Db.projects db !! id.

Definition touch (now : Z) (p : Project.t) : Project.t :=
  {| Project.id := Project.id p;
     Project.title := Project.title p;
     Project.thumbnail := Project.thumbnail p;
     Project.createdAt := Project.createdAt p;
     Project.updatedAt := now;
     Project.dataSources := Project.dataSources p;
     Project.prompt := Project.prompt p;
     Project.level := Project.level p;
     Project.style := Project.style p;
     Project.canvasState := Project.canvasState p;
     Project.history := Project.history p |}.

(** [project.updatedAt = Date.now(); store.put(project)]: the answer is
    the re-stamped object, which is also what the caller still holds. *)
Definition updateProject (now : Z) (project : Project.t) (db : Db.t)
  : Settled Project.t * Db.t :=
  let stamped := touch now project in
  (Fulfilled stamped,
   Db.mk (<[Project.id stamped := stamped]> (Db.projects db)) (Db.sources db)).

Definition deleteProject (id : string) (db : Db.t) : Db.t :=
  Db.mk (delete id (Db.projects db)) (Db.sources db).

(** [store.add(source)] on the data-source store. *)
Definition addDataSource (source : DataSource.t) (db : Db.t)
  : Settled () * Db.t :=
  match Db.sources db !! DataSource.id source with
  | Some _ => (Threw ConstraintError, db)
  | None =>
      (Fulfilled (),
       Db.mk (Db.projects db)
         (<[DataSource.id source := source]> (Db.sources db)))
  end.

(** ** The editor around its history ([Editor.tsx], lines 20-145 and
    252-255)

    The brand kit only travels to the generation calls and is left out. *)
Module Workbench.
Record state := mk {
  editor : Editor.state;
  projectId : option string;               (* prop *)
  project : option Project.t;
  dataSources : list DataSource.t;
  annotations : list Annotation.t;
  comments : list Comment.t;
  showDataModal : bool;
  isSaving : bool;
  lastSaved : option Z
}.
End Workbench.

Definition with_editor (ed : Editor.state) (wb : Workbench.state)
  : Workbench.state :=
  {| Workbench.editor := ed;
     Workbench.projectId := Workbench.projectId wb;
     Workbench.project := Workbench.project wb;
     Workbench.dataSources := Workbench.dataSources wb;
     Workbench.annotations := Workbench.annotations wb;
     Workbench.comments := Workbench.comments wb;
     Workbench.showDataModal := Workbench.showDataModal wb;
     Workbench.isSaving := Workbench.isSaving wb;
     Workbench.lastSaved := Workbench.lastSaved wb |}.

(** [setProject(p); setLastSaved(now)]. *)
Definition with_saved (p : Project.t) (now : Z) (wb : Workbench.state)
  : Workbench.state :=
  {| Workbench.editor := Workbench.editor wb;
     Workbench.projectId := Workbench.projectId wb;
     Workbench.project := Some p;
     Workbench.dataSources := Workbench.dataSources wb;
     Workbench.annotations := Workbench.annotations wb;
     Workbench.comments := Workbench.comments wb;
     Workbench.showDataModal := Workbench.showDataModal wb;
     Workbench.isSaving := Workbench.isSaving wb;
     Workbench.lastSaved := Some now |}.

(** [setDataSources(l); setShowDataModal(modal)]. *)
Definition with_sources (l : list DataSource.t) (modal : bool)
    (wb : Workbench.state) : Workbench.state :=
  {| Workbench.editor := Workbench.editor wb;
     Workbench.projectId := Workbench.projectId wb;
     Workbench.project := Workbench.project wb;
     Workbench.dataSources := l;
     Workbench.annotations := Workbench.annotations wb;
     Workbench.comments := Workbench.comments wb;
     Workbench.showDataModal := modal;
     Workbench.isSaving := Workbench.isSaving wb;
     Workbench.lastSaved := Workbench.lastSaved wb |}.

Definition with_saving (b : bool) (wb : Workbench.state) : Workbench.state :=
  {| Workbench.editor := Workbench.editor wb;
     Workbench.projectId := Workbench.projectId wb;
     Workbench.project := Workbench.project wb;
     Workbench.dataSources := Workbench.dataSources wb;
     Workbench.annotations := Workbench.annotations wb;
     Workbench.comments := Workbench.comments wb;
     Workbench.showDataModal := Workbench.showDataModal wb;
     Workbench.isSaving := b;
     Workbench.lastSaved := Workbench.lastSaved wb |}.

(** The editor on mounting, before its effect runs. *)
Definition fresh_workbench (projectId : option string) : Workbench.state :=
  {| Workbench.editor := initial_editor;
     Workbench.projectId := projectId;
     Workbench.project := None;
     Workbench.dataSources := [];
     Workbench.annotations := [];
     Workbench.comments := [];
     Workbench.showDataModal := false;
     Workbench.isSaving := false;
     Workbench.lastSaved := None |}.

(** The readings of [Date.now()] one run of [saveProjectState] may take:
    for a generated id, for [createdAt], for [updatedAt], inside
    [db.updateProject], and for [lastSaved]. *)
Module SaveClock.
Record t := mk {
  now_id : Z;
  now_created : Z;
  now_updated : Z;
  now_put : Z;
  now_saved : Z
}.
End SaveClock.

(** [a || b] on strings that may be absent. *)
Definition or_else (a b : option string) : option string :=
  if truthy a then a else b.

(** The record [saveProjectState] builds from the state its closure
    holds (lines 114-128). *)
Definition project_record (newImage : option string) (clock : SaveClock.t)
    (wb : Workbench.state) : Project.t :=
  let ed := Workbench.editor wb in
  let currentImg :=
    or_else newImage
      (GeneratedImage.data
         <$> at_index (Editor.history ed) (Editor.currentIndex ed)) in
  {| Project.id :=
       default (pretty (SaveClock.now_id clock))
         (or_else (Project.id <$> Workbench.project wb)
            (or_else (Workbench.projectId wb) None));
     Project.title :=
       if String.eqb (Editor.objective ed) "" then "Untitled Dashboard"
       else Editor.objective ed;
     Project.thumbnail := currentImg;
     Project.createdAt :=
       match Workbench.project wb with
       | Some p =>
           if Project.createdAt p =? 0 then SaveClock.now_created clock
           else Project.createdAt p
       | None => SaveClock.now_created clock
       end;
     Project.updatedAt := SaveClock.now_updated clock;
     Project.dataSources := Some (Workbench.dataSources wb);
     Project.prompt := Editor.objective ed;
     Project.level := Editor.level ed;
     Project.style := Editor.style ed;
     Project.canvasState :=
       Some (CanvasRecord.mk None (Some (Workbench.annotations wb))
               (Some (Workbench.comments wb)));
     Project.history := Some (Editor.history ed) |}.

(** [saveProjectState(newImage)]: how it settles, the state after its
    [set...] calls, and the store. *)
Definition saveProjectState (newImage : option string) (clock : SaveClock.t)
    (wb : Workbench.state) (db : Db.t)
  : Settled () * Workbench.state * Db.t :=
  let p := project_record newImage clock wb in
  let written :=
    match Workbench.project wb with
    | None => createProject p db
    | Some _ => updateProject (SaveClock.now_put clock) p db
    end in
  match written with
  | (Fulfilled p', db') =>
      (Fulfilled (), with_saved p' (SaveClock.now_saved clock) wb, db')
  | (Threw err, db') => (Threw err, wb, db')
  | (Never, db') => (Never, wb, db')
  end.

(** The body of [loadProject] once [db.getProject] has answered [p]. *)
Definition restore (p : Project.t) (wb : Workbench.state) : Workbench.state :=
  let ed := Workbench.editor wb in
  let ed1 :=
    set_context (Project.style p) (Project.level p)
      (set_objective (Project.prompt p) ed) in
  let ed2 :=
    match Project.history p with
    | Some (h :: hs) => set_history (h :: hs) 0 ed1
    | _ =>
        match Project.thumbnail p with
        | Some thumbnail =>
            if String.eqb thumbnail "" then ed1
            else
              set_history
                [ {| GeneratedImage.id := Project.id p;
                     GeneratedImage.data := thumbnail;
                     GeneratedImage.prompt := Project.prompt p;
                     GeneratedImage.timestamp := Project.updatedAt p;
                     GeneratedImage.level := Project.level p;
                     GeneratedImage.style := Project.style p |} ]
                (Editor.currentIndex ed1) ed1
        | None => ed1
        end
    end in
  {| Workbench.editor := ed2;
     Workbench.projectId := Workbench.projectId wb;
     Workbench.project := Some p;
     Workbench.dataSources := default [] (Project.dataSources p);
     Workbench.annotations :=
       match Project.canvasState p with
       | Some cs => default [] (CanvasRecord.annotations cs)
       | None => Workbench.annotations wb
       end;
     Workbench.comments :=
       match Project.canvasState p with
       | Some cs => default [] (CanvasRecord.comments cs)
       | None => Workbench.comments wb
       end;
     Workbench.showDataModal := Workbench.showDataModal wb;
     Workbench.isSaving := Workbench.isSaving wb;
     Workbench.lastSaved := Workbench.lastSaved wb |}.

Definition loadProject (id : string) (db : Db.t) (wb : Workbench.state)
  : Workbench.state :=
  match getProject id db with
  | Some p => restore p wb
  | None => wb
  end.

(** Mounting the editor: the effect of lines 51-59 on the fresh state. *)
Definition mount (projectId : option string) (db : Db.t) : Workbench.state :=
  match projectId with
  | Some id =>
      if String.eqb id "" then
        with_sources [] true (fresh_workbench projectId)
      else loadProject id db (fresh_workbench projectId)
  | None => with_sources [] true (fresh_workbench projectId)
  end.

(** [handleManualSave]: once the save has fulfilled and the 800ms timer
    has fired, [isSaving] is off again; a save that rejects or never
    settles leaves it on. *)
Definition handleManualSave (clock : SaveClock.t) (wb : Workbench.state)
    (db : Db.t) : Workbench.state * Db.t :=
  match saveProjectState None clock wb db with
  | (Fulfilled _, wb', db') => (with_saving false wb', db')
  | (_, wb', db') => (with_saving true wb', db')
  end.

(** [handleConnectSource]: neither [db.addDataSource] nor
    [saveProjectState] is awaited; the save runs in the closure of the
    render that created the handler. *)
Definition handleConnectSource (source : DataSource.t) (clock : SaveClock.t)
    (wb : Workbench.state) (db : Db.t) : Workbench.state * Db.t :=
  let updated := Workbench.dataSources wb ++ [source] in
  let db1 := snd (addDataSource source db) in
  match saveProjectState None clock wb db1 with
  | (_, saved, db2) => (with_sources updated false saved, db2)
  end.

Definition handleDeleteSource (id : string) (clock : SaveClock.t)
    (wb : Workbench.state) (db : Db.t) : Workbench.state * Db.t :=
  let kept :=
    filter (λ ds, negb (String.eqb (DataSource.id ds) id))
      (Workbench.dataSources wb) in
  match saveProjectState None clock wb db with
  | (_, saved, db') =>
      (with_sources kept (Workbench.showDataModal saved) saved, db')
  end.

Section Persisting.

(** [String.prototype.trim]. *)
Variable trim : string → string.

(** [handleGenerate] with the save it awaits: [saveProjectState(base64)]
    runs in the closure of the render that created the handler, that is,
    on the state as it was before the handler's own [set...] calls. *)
Definition generateAndSave (analysis : Settled AnalysisResult.t)
    (generated : Settled string) (clock : SaveClock.t) (now_id now_ts : Z)
    (wb : Workbench.state) (db : Db.t) : Workbench.state * Db.t :=
  let ed := Workbench.editor wb in
  match analysis, generated with
  | Fulfilled _, Fulfilled base64 =>
      if Editor.isLoading ed || String.eqb (trim (Editor.objective ed)) ""
      then (wb, db)
      else
        match saveProjectState (Some base64) clock wb db with
        | (saved, wb', db') =>
            (with_editor
               (handleGenerate trim analysis generated saved now_id now_ts ed)
               wb',
             db')
        end
  | _, _ =>
      (with_editor
         (handleGenerate trim analysis generated Never now_id now_ts ed) wb,
       db)
  end.

(** What a user of the editor can do to its history, one event at a
    time. *)
Inductive EditorEvent :=
  | Generate (analysis : Settled AnalysisResult.t) (generated : Settled string)
      (saved : Settled ()) (now_id now_ts : Z)
  | Edit (editPrompt : string) (edited : Settled string) (saved : Settled ())
      (now_id now_ts : Z)
  | Undo
  | Redo
  | Jump (index : Z).

(** An event on the rendered editor: the undo and redo buttons are
    [disabled] unless [canUndo] and [canRedo], and the version strip has
    one button per entry. *)
Definition fire (st : Editor.state) (ev : EditorEvent) : Editor.state :=
  match ev with
  | Generate analysis generated saved now_id now_ts =>
      handleGenerate trim analysis generated saved now_id now_ts st
  | Edit editPrompt edited saved now_id now_ts =>
      handleEdit editPrompt edited saved now_id now_ts st
  | Undo => if canUndo st then onUndo st else st
  | Redo => if canRedo st then onRedo st else st
  | Jump index =>
      if bool_decide (index ∈ strip_indices st)
      then handleJumpToHistory index st
      else st
  end.

Definition run (events : list EditorEvent) (st : Editor.state)
  : Editor.state :=
  foldl fire st events.

End Persisting.

(** [handleEdit] with the save it awaits, as [generateAndSave]. *)
Definition editAndSave (editPrompt : string) (edited : Settled string)
    (clock : SaveClock.t) (now_id now_ts : Z) (wb : Workbench.state)
    (db : Db.t) : Workbench.state * Db.t :=
  let ed := Workbench.editor wb in
  match Editor.history ed,
        at_index (Editor.history ed) (Editor.currentIndex ed), edited with
  | _ :: _, Some _, Fulfilled base64 =>
      match saveProjectState (Some base64) clock wb db with
      | (saved, wb', db') =>
          (with_editor
             (handleEdit editPrompt edited saved now_id now_ts ed) wb',
           db')
      end
  | _, _, _ =>
      (with_editor (handleEdit editPrompt edited Never now_id now_ts ed) wb, db)
  end.

(** The cursor names an entry, or rests at 0 on an empty history. *)
Definition cursor_ok (st : Editor.state) : Prop :=
  in_range (Editor.history st) (Editor.currentIndex st)
  ∨ (Editor.history st = [] ∧ Editor.currentIndex st = 0).

(** What of the editor a stored project is meant to bring back. *)
Definition content (wb : Workbench.state)
  : string * ComplexityLevel * VisualStyle * list DataSource.t
    * list Annotation.t * list Comment.t * list GeneratedImage.t :=
  (Editor.objective (Workbench.editor wb), Editor.level (Workbench.editor wb),
   Editor.style (Workbench.editor wb), Workbench.dataSources wb,
   Workbench.annotations wb, Workbench.comments wb,
   Editor.history (Workbench.editor wb)).

(** A promise that settles, one way or the other. *)
Definition settles {A} (s : Settled A) : Prop := s ≠ Never.

(** Every promise [handleGenerate] gets to await settles. *)
Definition generate_settles (analysis : Settled AnalysisResult.t)
    (generated : Settled string) (saved : Settled ()) : Prop :=
  match analysis, generated with
  | Fulfilled _, Fulfilled _ => settles saved
  | Fulfilled _, _ => settles generated
  | _, _ => settles analysis
  end.

(** Every promise [handleEdit] gets to await settles, the cursor being on
    [current] or off the list. *)
Definition edit_settles (current : option GeneratedImage.t)
    (edited : Settled string) (saved : Settled ()) : Prop :=
  match current, edited with
  | None, _ => True
  | Some _, Fulfilled _ => settles saved
  | Some _, _ => settles edited
  end.

(** The save can write: an editor that holds no project yet needs the id
    it is about to use to be free in the store. *)
Definition can_save (clock : SaveClock.t) (wb : Workbench.state) (db : Db.t)
  : Prop :=
  Workbench.project wb = None →
  Db.projects db !! Project.id (project_record None clock wb) = None.


(** The update [{ x, y }] of a drag commit. *)
Definition position_update (x y : Q) : AnnotationUpdates.t :=
  AnnotationUpdates.mk None (Some x) (Some y) None None None None None.

(** The text calls of an exported bitmap, in paint order. *)
Definition painted_texts (canvas : HTMLCanvasElement.t) : list CanvasOp :=
  filter (λ op, is_Some (font_px op)) (HTMLCanvasElement.painted canvas).

(** ** Fixtures for the editor's worked examples *)

Definition empty_db : Db.t := Db.mk ∅ ∅.

Definition sample_clock : SaveClock.t :=
  SaveClock.mk 1700000000010 1700000000011 1700000000012 1700000000013
    1700000000014.

Definition sample_source : DataSource.t :=
  DataSource.mk "1700000000020" FILE_UPLOAD "sales.csv" CONNECTED None.

(** A new editor with an objective typed in and one revision shown. *)
Definition sample_workbench : Workbench.state :=
  with_sources [sample_source] false
    (with_editor
       (set_history [sample_image] 0
          (set_objective "Sales by region" initial_editor))
       (fresh_workbench None)).

Definition sample_analysis : AnalysisResult.t :=
  AnalysisResult.mk "Compare regions" ["Revenue"] ["Bar"].

(** ** The generation calls ([src/lib/gemini.ts], lines 127-283)

    The model's replies are inputs.  A text reply is [response.text]
    ([None] for [undefined]); an image reply is
    [response.candidates?.[0]?.content?.parts] ([None] when the chain
    yields [undefined]). *)

Module InlineData.
Record t := mk { mimeType : option string; data : option string }.
End InlineData.

Module Part.
Record t := mk { text : option string; inlineData : option InlineData.t }.
End Part.

Definition SVG_PREFIX : string := "data:image/svg+xml;base64,".
Definition PNG_PREFIX : string := "data:image/png;base64,".

(** [image.data.startsWith('data:image/svg+xml')] ([DashboardCanvas.tsx],
    line 70; [gemini.ts], line 214). *)
Definition isSvg (data : string) : bool :=
  String.prefix "data:image/svg+xml" data.

(** The loop over the parts of an image reply: the first part that carries
    inline data wins. *)
Fixpoint first_inline_image (parts : list Part.t) : option string :=
  match parts with
  | [] => None
  | part :: rest =>
      match Part.inlineData part with
      | Some inline =>
          if truthy (InlineData.data inline)
          then InlineData.data inline
          else first_inline_image rest
      | None => first_inline_image rest
      end
  end.

(** The tail shared by [generateRasterDashboard] and the raster branch of
    [editDashboardImage]. *)
Definition raster_result (failure : string)
    (reply : Settled (option (list Part.t))) : Settled string :=
  match reply with
  | Fulfilled parts =>
      match first_inline_image (default [] parts) with
      | Some data => Fulfilled (PNG_PREFIX +:+ data)
      | None => Threw (JsError.mk (Some failure))
      end
  | Threw err => Threw err
  | Never => Never
  end.

(** [imageBase64.replace(/^data:image\/(png|jpeg|jpg);base64,/, '')]. *)
Definition drop_prefix (p s : string) : option string :=
  if String.prefix p s
  then Some (String.substring (String.length p)
               (String.length s - String.length p) s)
  else None.

Definition cleanBase64 (imageBase64 : string) : string :=
  match drop_prefix "data:image/png;base64," imageBase64 with
  | Some rest => rest
  | None =>
      match drop_prefix "data:image/jpeg;base64," imageBase64 with
      | Some rest => rest
      | None =>
          default imageBase64
            (drop_prefix "data:image/jpg;base64," imageBase64)
      end
  end.

(** [s.split(',')]. *)
Fixpoint split_comma (s : string) : list string :=
  match s with
  | EmptyString => [""]
  | String c rest =>
      if Ascii.eqb c ","%char
      then "" :: split_comma rest
      else
        match split_comma rest with
        | field :: fields => String c field :: fields
        | [] => [String c ""]
        end
  end.

Section Gemini.

(** [text.match(/<svg[\s\S]*?<\/svg>/)], answering the matched text. *)
Variable svgMatch : string → option string.

(** [encodeBase64] and [decodeBase64] of lines 16-22; [None] when the
    built-ins they call throw. *)
Variable encodeBase64 : string → option string.
Variable decodeBase64 : option string → option string.

(** The value an SVG attempt returns, if it returns one. *)
Definition svg_from_reply (text : option string) : option string :=
  if truthy text then
    code ← text ≫= svgMatch;
    base64 ← encodeBase64 code;
    Some (SVG_PREFIX +:+ base64)
  else None.

Definition generateDashboardImage (svgReply : Settled (option string))
    (rasterReply : Settled (option (list Part.t))) : Settled string :=
  let raster := raster_result "Dashboard generation failed" rasterReply in
  match svgReply with
  | Fulfilled text =>
      match svg_from_reply text with
      | Some url => Fulfilled url
      | None => raster
      end
  | Threw _ => raster
  | Never => Never
  end.

Definition editDashboardImage (imageBase64 : string)
    (svgReply : Settled (option string))
    (rasterReply : Settled (option (list Part.t))) : Settled string :=
  let failed := Threw (JsError.mk (Some "Failed to edit SVG dashboard.")) in
  let raster := raster_result "Edit failed" rasterReply in
  if isSvg imageBase64 then
    let base64Code := split_comma imageBase64 !! 1%nat in
    match decodeBase64 base64Code with
    | None => failed
    | Some svgCode =>
        match svgReply with
        | Fulfilled text =>
            if truthy text then
              match text ≫= svgMatch with
              | Some newSvgCode =>
                  match encodeBase64 newSvgCode with
                  | Some newBase64 => Fulfilled (SVG_PREFIX +:+ newBase64)
                  | None => failed
                  end
              | None => raster
              end
            else raster
        | Threw _ => failed
        | Never => Never
        end
    end
  else raster.

End Gemini.

(** * Properties *)

(** ** [findIndex] and the first match *)

Section FindIndex.
Context {A : Type} (p : A → bool).

Lemma findIndex_from_app (l1 l : list A) (i : Z) :
  misses p l1 →
  findIndex_from p (l1 ++ l) i = findIndex_from p l (i + Z.of_nat (length l1)).
Proof.
  intros Hmiss. revert i.
  induction Hmiss as [|a l1 Ha _ IH]; intros i; simpl.
  - f_equal. lia.
  - rewrite Ha, IH. f_equal. lia.
Qed.

Lemma findIndex_misses (l : list A) : misses p l → findIndex p l = -1.
Proof.
  intros Hmiss. unfold findIndex.
  rewrite <- (app_nil_r l), findIndex_from_app by done. done.
Qed.

Lemma findIndex_first (l1 l2 : list A) (a : A) :
  misses p l1 → p a = true →
  findIndex p (l1 ++ a :: l2) = Z.of_nat (length l1).
Proof.
  intros Hmiss Ha. unfold findIndex.
  rewrite findIndex_from_app by done. simpl. by rewrite Ha.
Qed.

(** Every list either has no match or splits at its first match. *)
Lemma first_match_split (l : list A) :
  misses p l ∨ ∃ l1 a l2, l = l1 ++ a :: l2 ∧ misses p l1 ∧ p a = true.
Proof.
  induction l as [|b l IH].
  - left. constructor.
  - destruct (p b) eqn:Hb.
    + right. exists [], b, l. repeat split; [constructor | done].
    + destruct IH as [Hmiss | (l1 & a & l2 & -> & Hmiss & Ha)].
      * left. by constructor.
      * right. exists (b :: l1), a, l2. repeat split; [by constructor | done].
Qed.

Lemma findIndex_range (l : list A) :
  -1 ≤ findIndex p l < Z.of_nat (length l).
Proof.
  destruct (first_match_split l) as [Hmiss | (l1 & a & l2 & -> & Hmiss & Ha)].
  - rewrite findIndex_misses by done. lia.
  - rewrite findIndex_first by done. rewrite length_app. simpl. lia.
Qed.

Lemma findIndex_absent (l : list A) : findIndex p l = -1 → misses p l.
Proof.
  destruct (first_match_split l) as [Hmiss | (l1 & a & l2 & -> & Hmiss & Ha)];
    [done |].
  rewrite findIndex_first by done. lia.
Qed.

End FindIndex.

Lemma at_index_middle {A} (l1 l2 : list A) (a : A) :
  at_index (l1 ++ a :: l2) (Z.of_nat (length l1)) = Some a.
Proof.
  unfold at_index. rewrite Nat2Z.id.
  destruct (Z.leb_spec 0 (Z.of_nat (length l1))); [|lia].
  apply list_lookup_middle. done.
Qed.

Lemma at_index_Some {A} (l : list A) (i : Z) (a : A) :
  at_index l i = Some a ↔ 0 ≤ i ∧ l !! Z.to_nat i = Some a.
Proof.
  unfold at_index. destruct (Z.leb_spec 0 i); split; intros H'.
  - done.
  - by destruct H'.
  - done.
  - lia.
Qed.

Lemma at_index_None {A} (l : list A) (i : Z) :
  at_index l i = None ↔ ¬ (0 ≤ i < Z.of_nat (length l)).
Proof.
  unfold at_index. destruct (Z.leb_spec 0 i).
  - rewrite lookup_ge_None. lia.
  - split; [lia | done].
Qed.

(** Two array writes at neighbouring positions. *)
Lemma swap_adjacent {A} (l1 l2 : list A) (x y u v : A) :
  <[S (length l1) := v]> (<[length l1 := u]> (l1 ++ x :: y :: l2))
  = l1 ++ u :: v :: l2.
Proof. induction l1 as [|z l1 IH]; simpl; [done | by f_equal]. Qed.

Lemma swap_adjacent_down {A} (l1 l2 : list A) (x y u v : A) :
  <[length l1 := u]> (<[S (length l1) := v]> (l1 ++ x :: y :: l2))
  = l1 ++ u :: v :: l2.
Proof. induction l1 as [|z l1 IH]; simpl; [done | by f_equal]. Qed.

(** ** The z-order operations at the first match

    Writing the list as [l1 ++ a :: l2] with [a] its first annotation of
    the given id, each operation has a closed form. *)

Section ZOrder.
Variable id : string.
Variables (l1 l2 : list Annotation.t) (a : Annotation.t).
Hypothesis Hl1 : misses (has_id id) l1.
Hypothesis Ha : has_id id a = true.

Lemma bringToFront_first : bringToFront id (l1 ++ a :: l2) = l1 ++ l2 ++ [a].
Proof using Hl1 Ha.
  unfold bringToFront. rewrite findIndex_first by done.
  rewrite at_index_middle, Nat2Z.id, delete_middle, length_app. simpl.
  destruct (Z.eqb_spec (Z.of_nat (length l1)) (-1)); [lia|]. simpl.
  destruct (Z.eqb_spec (Z.of_nat (length l1))
              (Z.of_nat (length l1 + S (length l2)) - 1)) as [Heq|_].
  - destruct l2; [by rewrite app_nil_l | simpl in Heq; lia].
  - by rewrite <- app_assoc.
Qed.

Lemma sendToBack_first :
  sendToBack id (l1 ++ a :: l2) = a :: l1 ++ l2.
Proof using Hl1 Ha.
  unfold sendToBack. rewrite findIndex_first by done.
  rewrite at_index_middle, Nat2Z.id, delete_middle.
  destruct (Z.eqb_spec (Z.of_nat (length l1)) (-1)); [lia|]. simpl.
  destruct (Z.eqb_spec (Z.of_nat (length l1)) 0) as [Heq|_]; [|done].
  destruct l1; [done | simpl in Heq; lia].
Qed.

Lemma moveForward_last :
  l2 = [] → moveForward id (l1 ++ a :: l2) = l1 ++ a :: l2.
Proof using Hl1 Ha.
  intros ->. unfold moveForward. rewrite findIndex_first by done.
  rewrite length_app. simpl.
  destruct (Z.eqb_spec (Z.of_nat (length l1)) (-1)); [lia|]. simpl.
  destruct (Z.eqb_spec (Z.of_nat (length l1))
              (Z.of_nat (length l1 + 1) - 1)); [done | lia].
Qed.

Lemma moveForward_first (b : Annotation.t) (l2' : list Annotation.t) :
  l2 = b :: l2' → moveForward id (l1 ++ a :: l2) = l1 ++ b :: a :: l2'.
Proof using Hl1 Ha.
  intros ->. unfold moveForward. rewrite findIndex_first by done.
  rewrite length_app. simpl.
  destruct (Z.eqb_spec (Z.of_nat (length l1)) (-1)); [lia|]. simpl.
  destruct (Z.eqb_spec (Z.of_nat (length l1))
              (Z.of_nat (length l1 + S (S (length l2'))) - 1)); [lia|].
  rewrite at_index_middle.
  replace (Z.of_nat (length l1) + 1) with (Z.of_nat (length (l1 ++ [a])))
    by (rewrite length_app; simpl; lia).
  rewrite (cons_middle a l1 (b :: l2')), app_assoc, at_index_middle.
  rewrite !Nat2Z.id, <- app_assoc, length_app. simpl.
  rewrite Nat.add_1_r. apply swap_adjacent.
Qed.

Lemma moveBackward_first_pos :
  l1 = [] → moveBackward id (l1 ++ a :: l2) = l1 ++ a :: l2.
Proof using Hl1 Ha.
  intros Hnil. unfold moveBackward. rewrite findIndex_first by done.
  subst l1. done.
Qed.

Lemma moveBackward_first (c : Annotation.t) (l1' : list Annotation.t) :
  l1 = l1' ++ [c] → moveBackward id (l1 ++ a :: l2) = l1' ++ a :: c :: l2.
Proof using Hl1 Ha.
  intros Heq. unfold moveBackward. rewrite findIndex_first by done.
  rewrite at_index_middle. subst l1.
  rewrite length_app. simpl.
  destruct (Z.leb_spec (Z.of_nat (length l1' + 1)) 0); [lia|].
  replace (Z.of_nat (length l1' + 1) - 1) with (Z.of_nat (length l1')) by lia.
  rewrite <- app_assoc. simpl. rewrite at_index_middle.
  rewrite !Nat2Z.id, Nat.add_1_r. apply swap_adjacent_down.
Qed.

End ZOrder.

Lemma has_id_true (id : string) (a : Annotation.t) :
  has_id id a = true ↔ Annotation.id a = id.
Proof. apply String.eqb_eq. Qed.

Lemma has_id_false (id : string) (a : Annotation.t) :
  has_id id a = false ↔ Annotation.id a ≠ id.
Proof. apply String.eqb_neq. Qed.

Lemma misses_has_id (id : string) (l : list Annotation.t) :
  misses (has_id id) l ↔ id ∉ Annotation.id <$> l.
Proof.
  unfold misses. rewrite Forall_forall, list_elem_of_fmap. split.
  - intros Hall (a & -> & Hin). specialize (Hall a Hin).
    apply has_id_false in Hall. done.
  - intros Hnot a Hin. apply has_id_false. intros <-. apply Hnot. eauto.
Qed.

(** With no annotation of that id, every z-order operation returns early. *)
Lemma zorder_absent (id : string) (l : list Annotation.t) :
  misses (has_id id) l →
  bringToFront id l = l ∧ sendToBack id l = l
  ∧ moveForward id l = l ∧ moveBackward id l = l.
Proof.
  intros Hmiss.
  unfold bringToFront, sendToBack, moveForward, moveBackward.
  rewrite findIndex_misses by done. done.
Qed.

(** The reads behind the [not reached] branches of the z-order operations
    are always defined: the index [findIndex] answers, when not [-1], holds
    an annotation of that id, and so do its neighbours inside the list. *)
Lemma zorder_reads_defined (id : string) (l : list Annotation.t) :
  let index := findIndex (has_id id) l in
  index ≠ -1 →
  (∃ item, at_index l index = Some item ∧ has_id id item = true)
  ∧ (index ≠ Z.of_nat (length l) - 1 → is_Some (at_index l (index + 1)))
  ∧ (0 < index → is_Some (at_index l (index - 1))).
Proof.
  intros index Hfound. subst index.
  destruct (first_match_split (has_id id) l)
    as [Hmiss | (l1 & a & l2 & -> & Hmiss & Ha)].
  { by rewrite findIndex_misses in Hfound. }
  rewrite findIndex_first in * by done. repeat split.
  - exists a. by rewrite at_index_middle.
  - intros Hnotlast. apply not_eq_None_Some. rewrite at_index_None.
    rewrite length_app in *. simpl in *. lia.
  - intros Hpos. apply not_eq_None_Some. rewrite at_index_None.
    rewrite length_app. simpl. lia.
Qed.

(** ** Reordering keeps the elements (C10) *)

Lemma bringToFront_Permutation (id : string) (l : list Annotation.t) :
  bringToFront id l ≡ₚ l.
Proof.
  destruct (first_match_split (has_id id) l)
    as [Hmiss | (l1 & a & l2 & -> & Hmiss & Ha)].
  - by rewrite (proj1 (zorder_absent id l Hmiss)).
  - rewrite bringToFront_first by done.
    by rewrite (Permutation_app_comm l2 [a]).
Qed.

Lemma sendToBack_Permutation (id : string) (l : list Annotation.t) :
  sendToBack id l ≡ₚ l.
Proof.
  destruct (first_match_split (has_id id) l)
    as [Hmiss | (l1 & a & l2 & -> & Hmiss & Ha)].
  - by rewrite (proj1 (proj2 (zorder_absent id l Hmiss))).
  - rewrite sendToBack_first by done. apply Permutation_middle.
Qed.

Lemma moveForward_Permutation (id : string) (l : list Annotation.t) :
  moveForward id l ≡ₚ l.
Proof.
  destruct (first_match_split (has_id id) l)
    as [Hmiss | (l1 & a & l2 & -> & Hmiss & Ha)].
  - apply zorder_absent in Hmiss as (_ & _ & -> & _). done.
  - destruct l2 as [|b l2'].
    + by rewrite moveForward_last.
    + rewrite (moveForward_first id l1 (b :: l2') a Hmiss Ha b l2') by done.
      by rewrite Permutation_swap.
Qed.

Lemma moveBackward_Permutation (id : string) (l : list Annotation.t) :
  moveBackward id l ≡ₚ l.
Proof.
  destruct (first_match_split (has_id id) l)
    as [Hmiss | (l1 & a & l2 & -> & Hmiss & Ha)].
  - apply zorder_absent in Hmiss as (_ & _ & _ & ->). done.
  - destruct l1 as [|c l1' _] using rev_ind.
    + by rewrite moveBackward_first_pos.
    + rewrite (moveBackward_first id (l1' ++ [c]) l2 a Hmiss Ha c l1') by done.
      rewrite <- app_assoc. simpl. by rewrite Permutation_swap.
Qed.

(** C10. Each of bringToFront, sendToBack, moveForward and moveBackward,
    on every annotation list and every id, returns a permutation of the
    list it was given: the same annotation records, none added, dropped,
    duplicated or altered. *)
Theorem zorder_permutation (id : string) (l : list Annotation.t) :
  bringToFront id l ≡ₚ l ∧ sendToBack id l ≡ₚ l
  ∧ moveForward id l ≡ₚ l ∧ moveBackward id l ≡ₚ l.
Proof.
  auto using bringToFront_Permutation, sendToBack_Permutation,
    moveForward_Permutation, moveBackward_Permutation.
Qed.

(** ** Front and back (C5) *)

Lemma others_first (id : string) (l1 l2 : list Annotation.t) (a : Annotation.t) :
  has_id id a = true → others id (l1 ++ a :: l2) = others id (l1 ++ l2).
Proof.
  intros Ha. unfold others. rewrite !filter_app.
  rewrite filter_cons_False; [done | congruence].
Qed.

Lemma bringToFront_others (id : string) (l : list Annotation.t) :
  others id (bringToFront id l) = others id l.
Proof.
  destruct (first_match_split (has_id id) l)
    as [Hmiss | (l1 & a & l2 & -> & Hmiss & Ha)].
  - by rewrite (proj1 (zorder_absent id l Hmiss)).
  - rewrite bringToFront_first by done.
    rewrite (others_first id l1 l2 a Ha), app_assoc.
    rewrite <- (app_nil_r (l1 ++ l2)) at 2.
    change [a] with (a :: []). by rewrite others_first.
Qed.

Lemma sendToBack_others (id : string) (l : list Annotation.t) :
  others id (sendToBack id l) = others id l.
Proof.
  destruct (first_match_split (has_id id) l)
    as [Hmiss | (l1 & a & l2 & -> & Hmiss & Ha)].
  - by rewrite (proj1 (proj2 (zorder_absent id l Hmiss))).
  - rewrite sendToBack_first by done.
    rewrite (others_first id l1 l2 a Ha).
    by apply (others_first id [] (l1 ++ l2) a).
Qed.

(** C5. bringToFront(id) leaves the list alone when no annotation has the
    id or when the first one that has it is already last; otherwise it
    moves that annotation to the end and keeps the order of all the rest.
    bringToFront(id) followed by sendToBack(id) leaves the annotations of
    every other id in their original relative order. *)
Theorem bringToFront_sendToBack (id : string) (l : list Annotation.t) :
  (misses (has_id id) l → bringToFront id l = l)
  ∧ (findIndex (has_id id) l = Z.of_nat (length l) - 1 → bringToFront id l = l)
  ∧ (∀ l1 a l2,
       l = l1 ++ a :: l2 → misses (has_id id) l1 → has_id id a = true →
       bringToFront id l = l1 ++ l2 ++ [a])
  ∧ others id (sendToBack id (bringToFront id l)) = others id l.
Proof.
  repeat split.
  - intros Hmiss. apply (zorder_absent id l Hmiss).
  - intros Hlast. unfold bringToFront. rewrite Hlast, Z.eqb_refl.
    by rewrite orb_true_r.
  - intros l1 a l2 -> Hmiss Ha. by apply bringToFront_first.
  - by rewrite sendToBack_others, bringToFront_others.
Qed.

Lemma bringToFront_sendToBack_witness :
  let A := newAnnotation "a" 10 10 in
  let B := newAnnotation "b" 20 20 in
  let C := newAnnotation "c" 30 30 in
  bringToFront "a" [A; B; C] = [B; C; A].
Proof.
  simpl.
  apply (proj1 (proj2 (proj2
           (bringToFront_sendToBack "a"
              [newAnnotation "a" 10 10; newAnnotation "b" 20 20;
               newAnnotation "c" 30 30])))
           [] (newAnnotation "a" 10 10)
           [newAnnotation "b" 20 20; newAnnotation "c" 30 30]).
  - reflexivity.
  - constructor.
  - reflexivity.
Defined.

(** With distinct ids the pair puts the annotation first and keeps the
    rest as they were. *)
Lemma bringToFront_sendToBack_unique (id : string)
    (l1 l2 : list Annotation.t) (a : Annotation.t) :
  misses (has_id id) (l1 ++ l2) → has_id id a = true → l1 ++ l2 ≠ [] →
  sendToBack id (bringToFront id (l1 ++ a :: l2)) = a :: l1 ++ l2.
Proof.
  intros Hmiss Ha Hne.
  pose proof Hmiss as [Hl1 Hl2]%Forall_app.
  rewrite bringToFront_first by done.
  rewrite app_assoc.
  rewrite (sendToBack_first id (l1 ++ l2) [] a Hmiss Ha).
  by rewrite app_nil_r.
Qed.

(** ** Forward then backward (C4) *)

(** The pair cancels as soon as the annotation directly above has another
    id. *)
Lemma moveForward_moveBackward_above (id : string)
    (l1 l2 : list Annotation.t) (a b : Annotation.t) :
  misses (has_id id) l1 → has_id id a = true → has_id id b = false →
  moveBackward id (moveForward id (l1 ++ a :: b :: l2)) = l1 ++ a :: b :: l2.
Proof.
  intros Hl1 Ha Hb.
  rewrite (moveForward_first id l1 (b :: l2) a Hl1 Ha b l2) by done.
  assert (misses (has_id id) (l1 ++ [b])) as Hl1b.
  { apply Forall_app. split; [done | by constructor]. }
  rewrite (cons_middle b l1 (a :: l2)), app_assoc.
  by rewrite (moveBackward_first id (l1 ++ [b]) l2 a Hl1b Ha b l1).
Qed.

(** C4, as the code has it. On a list whose ids are pairwise distinct,
    and for an id that is not the id of the last annotation,
    moveForward(id) followed by moveBackward(id) gives back the list in
    its original order. *)
Theorem moveForward_moveBackward (id : string) (l : list Annotation.t) :
  NoDup (Annotation.id <$> l) →
  Annotation.id <$> last l ≠ Some id →
  moveBackward id (moveForward id l) = l.
Proof.
  intros Hnodup Hlast.
  destruct (first_match_split (has_id id) l)
    as [Hmiss | (l1 & a & l2 & -> & Hmiss & Ha)].
  - apply zorder_absent in Hmiss as (_ & _ & Hf & Hb). by rewrite Hf, Hb.
  - destruct l2 as [|b l2].
    + exfalso. apply Hlast. rewrite last_snoc. simpl.
      f_equal. by apply has_id_true.
    + apply moveForward_moveBackward_above; [done | done |].
      apply has_id_false. apply has_id_true in Ha.
      rewrite fmap_app in Hnodup. apply NoDup_app in Hnodup as (_ & _ & Hnd).
      simpl in Hnd. apply NoDup_cons in Hnd as [Hnotin _].
      intros Heq. apply Hnotin. rewrite Heq, Ha. apply list_elem_of_here.
Qed.

Lemma moveForward_moveBackward_witness :
  moveBackward "b"
    (moveForward "b"
       [newAnnotation "a" 10 10; newAnnotation "b" 20 20; newAnnotation "c" 30 30])
  = [newAnnotation "a" 10 10; newAnnotation "b" 20 20; newAnnotation "c" 30 30].
Proof.
  apply moveForward_moveBackward.
  - compute_done.
  - simpl. discriminate.
Defined.

(** C4, as the spec words it, fails on the topmost annotation:
    moveForward returns early and moveBackward then swaps it down. *)
Lemma moveForward_moveBackward_last_counterexample :
  let A := newAnnotation "a" 10 10 in
  let B := newAnnotation "b" 20 20 in
  "b" ∈ Annotation.id <$> [A; B]
  ∧ moveForward "b" [A; B] = [A; B]
  ∧ moveBackward "b" (moveForward "b" [A; B]) = [B; A]
  ∧ moveBackward "b" (moveForward "b" [A; B]) ≠ [A; B].
Proof.
  simpl. repeat split.
  - compute_done.
  - discriminate.
Qed.

(** ** Update and delete (C9) *)

Lemma spread_replaces_named (a : Annotation.t) (updates : AnnotationUpdates.t) :
  replaces_named a updates (spread a updates).
Proof.
  destruct updates as [i ux uy t c fs fw fst].
  unfold replaces_named, spread, field_after. simpl.
  destruct i, ux, uy, t, c, fs, fw, fst; simpl; repeat split.
Qed.

Lemma updateAnnotation_absent (id : string) (updates : AnnotationUpdates.t)
    (l : list Annotation.t) :
  misses (has_id id) l → updateAnnotation id updates l = l.
Proof.
  unfold updateAnnotation, misses.
  induction 1 as [|a l Ha _ IH]; simpl; [done|].
  rewrite Ha. by f_equal.
Qed.

Lemma deleteAnnotation_absent (id : string) (st : Canvas.state) :
  misses (has_id id) (Canvas.annotations st) →
  Canvas.annotations (deleteAnnotation id st) = Canvas.annotations st.
Proof.
  simpl. generalize (Canvas.annotations st). unfold misses.
  induction 1 as [|a l Ha _ IH]; [done|].
  rewrite filter_cons_True by (by rewrite Ha). by f_equal.
Qed.

(** C9. For an id no annotation has, updateAnnotation and deleteAnnotation
    leave the annotation list as it was, and nothing is raised (both are
    total).  In general updateAnnotation keeps the length of the list,
    leaves every annotation of another id untouched in its place, and
    gives an annotation of that id the values of the fields the update
    names while every field it does not name keeps its value. *)
Theorem update_delete_by_id (id : string) (updates : AnnotationUpdates.t)
    (st : Canvas.state) :
  (id ∉ Annotation.id <$> Canvas.annotations st →
     updateAnnotation id updates (Canvas.annotations st) = Canvas.annotations st
     ∧ Canvas.annotations (deleteAnnotation id st) = Canvas.annotations st)
  ∧ length (updateAnnotation id updates (Canvas.annotations st))
    = length (Canvas.annotations st)
  ∧ (∀ i a, Canvas.annotations st !! i = Some a → Annotation.id a ≠ id →
       updateAnnotation id updates (Canvas.annotations st) !! i = Some a)
  ∧ (∀ i a, Canvas.annotations st !! i = Some a → Annotation.id a = id →
       ∃ a', updateAnnotation id updates (Canvas.annotations st) !! i = Some a'
             ∧ replaces_named a updates a').
Proof.
  repeat split.
  - apply updateAnnotation_absent. by apply misses_has_id.
  - apply deleteAnnotation_absent. by apply misses_has_id.
  - unfold updateAnnotation. apply length_fmap.
  - intros i a Hi Hne. unfold updateAnnotation.
    rewrite list_lookup_fmap, Hi. simpl.
    apply has_id_false in Hne. by rewrite Hne.
  - intros i a Hi Heq. unfold updateAnnotation.
    rewrite list_lookup_fmap, Hi. simpl.
    apply has_id_true in Heq. rewrite Heq.
    eexists. split; [done|]. apply spread_replaces_named.
Qed.

Lemma update_delete_by_id_witness :
  let st :=
    initial_canvas (GeneratedImage.mk "1" "" "" 0 Operational ModernSaaS)
      [newAnnotation "a" 10 10; newAnnotation "b" 20 20] [] in
  updateAnnotation "z" no_updates (Canvas.annotations st) = Canvas.annotations st
  ∧ Canvas.annotations (deleteAnnotation "z" st) = Canvas.annotations st.
Proof.
  apply (update_delete_by_id "z" no_updates
           (initial_canvas (GeneratedImage.mk "1" "" "" 0 Operational ModernSaaS)
              [newAnnotation "a" 10 10; newAnnotation "b" 20 20] [])).
  compute_done.
Defined.

(** ** The live position of a drag (C3) *)




Lemma Math_round_nearest (q : Q) :
  (inject_Z (Math_round q) - (1 # 2) <= q)%Q
  ∧ (q < inject_Z (Math_round q) + (1 # 2))%Q.
Proof.
  unfold Math_round.
  pose proof (Qfloor_le (q + (1 # 2))) as Hle.
  pose proof (Qlt_floor (q + (1 # 2))) as Hlt.
  rewrite inject_Z_plus in Hlt. change (inject_Z 1) with 1%Q in Hlt.
  split; lra.
Qed.






(** ** Ending a drag: pointer-up and pointer-cancel (C2) *)

Lemma truthy_Some (s : string) : truthy (Some s) = true ↔ s ≠ "".
Proof. simpl. rewrite negb_true_iff. apply String.eqb_neq. Qed.


(** Without a live session [handlePointerUp] commits nothing. *)
Lemma committed_idle (st : Canvas.state) :
  Canvas.isDragging st = false ∨ Canvas.localDragState st = None
  ∨ truthy (Canvas.selectedAnnotationId st) = false →
  committed st = Canvas.annotations st.
Proof.
  unfold committed. intros [-> | [-> | Hsel]]; [done | by destruct Canvas.isDragging |].
  destruct (Canvas.isDragging st), (Canvas.localDragState st),
    (Canvas.selectedAnnotationId st); try done.
  by rewrite Hsel.
Qed.

(** With a live session it writes the live position into the annotations
    of the selected id. *)
Lemma committed_live (st : Canvas.state) (live : LocalDrag.t) (sel : string) :
  Canvas.isDragging st = true → Canvas.localDragState st = Some live →
  Canvas.selectedAnnotationId st = Some sel → sel ≠ "" →
  committed st
  = (λ a, if has_id sel a
          then with_position a (LocalDrag.x live) (LocalDrag.y live)
          else a) <$> Canvas.annotations st.
Proof.
  intros Hdrag Hlive Hsel Hne. unfold committed.
  rewrite Hdrag, Hlive, Hsel.
  by rewrite (proj2 (truthy_Some sel) Hne).
Qed.




(** ** The export compositor (C6, C7) *)

Lemma generateCanvas_painted (fillBackground : bool) (img : NaturalSize.t)
    (st : Canvas.state) :
  ∃ canvas,
    generateCanvas fillBackground true (Some img) st = Fulfilled canvas
    ∧ HTMLCanvasElement.width canvas = NaturalSize.naturalWidth img
    ∧ HTMLCanvasElement.height canvas = NaturalSize.naturalHeight img
    ∧ HTMLCanvasElement.painted canvas
      = (if fillBackground
         then [fillRect "#ffffff" 0 0
                 (inject_Z (NaturalSize.naturalWidth img))
                 (inject_Z (NaturalSize.naturalHeight img))]
         else [])
        ++ drawImage (GeneratedImage.data (Canvas.image st)) 0 0
        :: (draw_annotation (NaturalSize.naturalWidth img)
              (NaturalSize.naturalHeight img) <$> Canvas.annotations st).
Proof. eexists. by repeat split. Qed.

Lemma generateCanvas_comments (fillBackground has_context : bool)
    (loaded : option NaturalSize.t) (comments : list Comment.t)
    (st : Canvas.state) :
  generateCanvas fillBackground has_context loaded (with_comments comments st)
  = generateCanvas fillBackground has_context loaded st.
Proof. done. Qed.

Lemma handleExport_canvas (format : ExportFormat) (has_context opened : bool)
    (loaded : option NaturalSize.t) (st : Canvas.state)
    (canvas : HTMLCanvasElement.t) :
  exported_canvas (handleExport format has_context loaded opened st) = Some canvas →
  generateCanvas (withBackground format) has_context loaded st = Fulfilled canvas.
Proof.
  unfold handleExport.
  destruct (generateCanvas (withBackground format) has_context loaded st)
    as [c| |]; [|done|done].
  destruct format, opened; simpl; congruence.
Qed.

(** C6. Whatever the export format, the exported bitmap does not depend on
    the comment list.  When the export yields a bitmap, what was painted
    is an optional white background, then the base image at (0,0), then
    one text per annotation and nothing else: the annotation at store
    position i is painted i places after the base image, at
    ((x/100) * width, (y/100) * height), so later annotations are painted
    later and end on top.  An export with a context, a decoded image and
    (for pdf) an opened window does yield a bitmap. *)
Theorem export_paints_annotations_only (format : ExportFormat)
    (has_context opened : bool) (loaded : option NaturalSize.t)
    (st : Canvas.state) :
  (∀ comments,
     handleExport format has_context loaded opened (with_comments comments st)
     = handleExport format has_context loaded opened st)
  ∧ (∀ canvas,
       exported_canvas (handleExport format has_context loaded opened st)
       = Some canvas →
       let W := HTMLCanvasElement.width canvas in
       let H := HTMLCanvasElement.height canvas in
       ∃ background,
         (background = []
          ∨ background = [fillRect "#ffffff" 0 0 (inject_Z W) (inject_Z H)])
         ∧ HTMLCanvasElement.painted canvas
           = background
             ++ drawImage (GeneratedImage.data (Canvas.image st)) 0 0
             :: (draw_annotation W H <$> Canvas.annotations st)
         ∧ length (HTMLCanvasElement.painted canvas)
           = (length background + 1 + length (Canvas.annotations st))%nat
         ∧ ∀ i ann, Canvas.annotations st !! i = Some ann →
             ∃ font,
               HTMLCanvasElement.painted canvas !! (length background + 1 + i)%nat
               = Some (fillText font (Annotation.color ann) "middle" "center"
                         (Annotation.text ann)
                         (to_pixels (Annotation.x ann) (inject_Z W))
                         (to_pixels (Annotation.y ann) (inject_Z H))))
  ∧ (∀ img, has_context = true → loaded = Some img →
       format ≠ pdf ∨ opened = true →
       ∃ canvas,
         exported_canvas (handleExport format has_context loaded opened st)
         = Some canvas).
Proof.
  repeat split.
  - intros canvas Hexp W H. apply handleExport_canvas in Hexp.
    destruct has_context; [|done]. destruct loaded as [img|]; [|done].
    destruct (generateCanvas_painted (withBackground format) img st)
      as (c & Hc & Hw & Hh & Hp).
    rewrite Hc in Hexp. injection Hexp as ->.
    subst W H. rewrite Hw, Hh.
    eexists. split; [|split; [exact Hp|split]].
    + destruct (withBackground format); [by right | by left].
    + rewrite Hp, length_app. simpl. rewrite length_fmap. lia.
    + intros i ann Hi. rewrite Hp.
      rewrite lookup_app_r by lia.
      replace (_ + 1 + i - _)%nat with (S i) by lia. simpl.
      rewrite list_lookup_fmap, Hi. simpl. by eexists.
  - intros img -> -> Hfmt. unfold handleExport. simpl.
    destruct format, opened, Hfmt; try done; by eexists.
Qed.

Lemma export_paints_annotations_only_witness :
  let st :=
    initial_canvas sample_image [newAnnotation "a" 50 50]
      [Comment.mk "c" 50 50 "Looks off" "You" false 1700000000001] in
  ∃ canvas,
    exported_canvas
      (handleExport jpg true (Some (NaturalSize.mk 1600 900)) false st)
    = Some canvas.
Proof.
  apply (proj2 (proj2
           (export_paints_annotations_only jpg true false
              (Some (NaturalSize.mk 1600 900))
              (initial_canvas sample_image [newAnnotation "a" 50 50]
                 [Comment.mk "c" 50 50 "Looks off" "You" false 1700000000001])))
           (NaturalSize.mk 1600 900)).
  - reflexivity.
  - reflexivity.
  - left. discriminate.
Defined.

(** C7, as the code has it. The font size an annotation is painted with
    in the export bitmap is the larger of 12 and its fontSize times
    (W / 800), W being the bitmap's native width: the scaled size when
    that is at least 12, and 12 otherwise. *)
Theorem export_font_size_floor (fillBackground : bool) (img : NaturalSize.t)
    (st : Canvas.state) (i : nat) (ann : Annotation.t) :
  Canvas.annotations st !! i = Some ann →
  let scaled :=
    (Annotation.fontSize ann
     * (inject_Z (NaturalSize.naturalWidth img) / 800))%Q in
  ∃ canvas op,
    generateCanvas fillBackground true (Some img) st = Fulfilled canvas
    ∧ HTMLCanvasElement.painted canvas
        !! ((if fillBackground then 2 else 1) + i)%nat = Some op
    ∧ font_px op = Some (Qmax 12 scaled)
    ∧ ((12 <= scaled)%Q → (Qmax 12 scaled == scaled)%Q)
    ∧ ((scaled <= 12)%Q → (Qmax 12 scaled == 12)%Q).
Proof.
  intros Hi scaled.
  destruct (generateCanvas_painted fillBackground img st)
    as (c & Hc & Hw & Hh & Hp).
  exists c, (draw_annotation (NaturalSize.naturalWidth img)
               (NaturalSize.naturalHeight img) ann).
  split; [done|]. split; [|split; [done|split]].
  - rewrite Hp. destruct fillBackground; simpl;
      by rewrite list_lookup_fmap, Hi.
  - apply Q.max_r.
  - apply Q.max_l.
Qed.

Lemma export_font_size_floor_witness :
  let st := initial_canvas sample_image [newAnnotation "a" 50 50] [] in
  ∃ canvas op,
    generateCanvas false true (Some (NaturalSize.mk 1600 900)) st
    = Fulfilled canvas
    ∧ HTMLCanvasElement.painted canvas !! 1%nat = Some op
    ∧ font_px op = Some (Qmax 12 (20 * (inject_Z 1600 / 800))).
Proof.
  destruct (export_font_size_floor false (NaturalSize.mk 1600 900)
              (initial_canvas sample_image [newAnnotation "a" 50 50] [])
              0%nat (newAnnotation "a" 50 50))
    as (canvas & op & Hc & Hop & Hpx & _); [reflexivity|].
  by exists canvas, op.
Defined.

(** C7, as the spec words it, fails below the 12px floor: a 20px label
    exported at a native width of 400 is painted at 12px, not at
    20 * 400 / 800 = 10px. *)
Lemma export_font_size_counterexample :
  let ann := newAnnotation "a" 50 50 in
  let st := initial_canvas sample_image [ann] [] in
  ∃ canvas op px,
    generateCanvas false true (Some (NaturalSize.mk 400 300)) st
    = Fulfilled canvas
    ∧ HTMLCanvasElement.painted canvas !! 1%nat = Some op
    ∧ font_px op = Some px
    ∧ (px == 12)%Q
    ∧ (Annotation.fontSize ann * (inject_Z 400 / 800) == 10)%Q
    ∧ ¬ (px == Annotation.fontSize ann * (inject_Z 400 / 800))%Q.
Proof.
  simpl. do 3 eexists. repeat split. discriminate.
Qed.

(** ** History: pushing a new revision (C8) *)

Lemma push_and_save_history (fallback : string) (newImage : GeneratedImage.t)
    (history : list GeneratedImage.t) (saved : Settled ()) (st : Editor.state) :
  let st' := push_and_save fallback newImage history saved st in
  Editor.history st' = newImage :: history ∧ Editor.currentIndex st' = 0.
Proof. by destruct saved. Qed.

(** C8. When handleGenerate gets its image (not loading, an objective that
    is not blank, analysis and generation fulfilled) and when handleEdit
    gets its image (the cursor on an entry, the edit fulfilled), the new
    revision is put at index 0 in front of the unchanged older entries and
    the cursor is reset to 0, whatever the history held before (empty or
    not, for generation; edit needs an entry to edit) and however the
    save that follows settles. *)
Theorem pushNewest_front (trim : string → string) (st : Editor.state)
    (saved : Settled ()) (base64 : string) (now_id now_ts : Z) :
  (∀ a,
     Editor.isLoading st = false → trim (Editor.objective st) ≠ "" →
     let st' :=
       handleGenerate trim (Fulfilled a) (Fulfilled base64) saved
         now_id now_ts st in
     ∃ entry,
       Editor.history st' = entry :: Editor.history st
       ∧ at_index (Editor.history st') 0 = Some entry
       ∧ Editor.currentIndex st' = 0
       ∧ GeneratedImage.data entry = base64
       ∧ GeneratedImage.prompt entry = Editor.objective st)
  ∧ (∀ editPrompt current,
       at_index (Editor.history st) (Editor.currentIndex st) = Some current →
       let st' :=
         handleEdit editPrompt (Fulfilled base64) saved now_id now_ts st in
       ∃ entry,
         Editor.history st' = entry :: Editor.history st
         ∧ at_index (Editor.history st') 0 = Some entry
         ∧ Editor.currentIndex st' = 0
         ∧ GeneratedImage.data entry = base64
         ∧ GeneratedImage.prompt entry = editPrompt).
Proof.
  split.
  - intros a Hload Hobj st'. subst st'. unfold handleGenerate.
    rewrite Hload. apply String.eqb_neq in Hobj. rewrite Hobj. simpl.
    eexists. rewrite (proj1 (push_and_save_history _ _ _ _ _)),
      (proj2 (push_and_save_history _ _ _ _ _)).
    by repeat split.
  - intros editPrompt current Hcur st'. subst st'. unfold handleEdit.
    rewrite Hcur.
    destruct (Editor.history st) as [|h hs] eqn:Hh.
    { apply at_index_Some in Hcur as [_ Hcur]. by rewrite lookup_nil in Hcur. }
    simpl. eexists.
    rewrite (proj1 (push_and_save_history _ _ _ _ _)),
      (proj2 (push_and_save_history _ _ _ _ _)).
    by repeat split.
Qed.

Lemma pushNewest_front_witness :
  let st := set_objective "Sales by region" initial_editor in
  ∃ entry,
    Editor.history
      (handleGenerate (λ s, s)
         (Fulfilled (AnalysisResult.mk "Compare regions" ["Revenue"] ["Bar"]))
         (Fulfilled "data:image/svg+xml;base64,PHN2Zz4=") (Fulfilled ())
         1700000000002 1700000000003 st)
    = entry :: Editor.history st
    ∧ Editor.currentIndex
        (handleGenerate (λ s, s)
           (Fulfilled (AnalysisResult.mk "Compare regions" ["Revenue"] ["Bar"]))
           (Fulfilled "data:image/svg+xml;base64,PHN2Zz4=") (Fulfilled ())
           1700000000002 1700000000003 st)
      = 0.
Proof.
  destruct (proj1 (pushNewest_front (λ s, s)
                     (set_objective "Sales by region" initial_editor)
                     (Fulfilled ()) "data:image/svg+xml;base64,PHN2Zz4="
                     1700000000002 1700000000003)
              (AnalysisResult.mk "Compare regions" ["Revenue"] ["Bar"]))
    as (entry & Hh & _ & Hc & _); [reflexivity | discriminate |].
  exists entry. by split.
Defined.

(** ** History: jumping the cursor (C1) *)

Lemma at_index_in_range (history : list GeneratedImage.t) (index : Z) :
  in_range history index ↔ is_Some (at_index history index).
Proof.
  unfold in_range. rewrite <- not_eq_None_Some, at_index_None. lia.
Qed.

Lemma jump_currentIndex (index : Z) (st : Editor.state) :
  Editor.currentIndex (handleJumpToHistory index st) = index.
Proof.
  unfold handleJumpToHistory.
  by destruct (at_index (Editor.history st) index).
Qed.

(** C1, as the code has it. handleJumpToHistory sets the cursor to the
    index it is given, in range or not, and never touches the history
    list; no index is rejected.  In range, the style and level of the
    entry at that index are restored as well; out of range, nothing but
    the cursor changes. *)
Theorem handleJumpToHistory_sets_cursor (index : Z) (st : Editor.state) :
  let st' := handleJumpToHistory index st in
  Editor.currentIndex st' = index
  ∧ Editor.history st' = Editor.history st
  ∧ (in_range (Editor.history st) index →
     ∃ entry,
       at_index (Editor.history st) index = Some entry
       ∧ st' = set_context (GeneratedImage.style entry)
                 (GeneratedImage.level entry) (set_currentIndex index st))
  ∧ (¬ in_range (Editor.history st) index → st' = set_currentIndex index st).
Proof.
  simpl. unfold handleJumpToHistory. repeat split.
  - by destruct (at_index (Editor.history st) index).
  - by destruct (at_index (Editor.history st) index).
  - intros [entry Hentry]%at_index_in_range. rewrite Hentry. by exists entry.
  - intros Hout%at_index_None. by rewrite Hout.
Qed.

Lemma handleJumpToHistory_sets_cursor_witness :
  let st := set_history [sample_image] 0 initial_editor in
  handleJumpToHistory 5 st = set_currentIndex 5 st.
Proof.
  apply (handleJumpToHistory_sets_cursor 5
           (set_history [sample_image] 0 initial_editor)).
  unfold in_range. simpl. lia.
Defined.

(** C1, as the spec words it, fails: with one revision and the cursor on
    it, a jump to index 5 is not rejected and moves the cursor to 5. *)
Lemma handleJumpToHistory_counterexample :
  let st := set_history [sample_image] 0 initial_editor in
  ¬ in_range (Editor.history st) 5
  ∧ Editor.currentIndex st = 0
  ∧ Editor.currentIndex (handleJumpToHistory 5 st) = 5
  ∧ Editor.currentIndex (handleJumpToHistory 5 st) ≠ Editor.currentIndex st.
Proof.
  simpl. repeat split; [unfold in_range; simpl; lia | discriminate].
Qed.

(** Every index the canvas can hand to [onJumpToHistory] is in range: the
    version strip offers the positions of the history, and the undo and
    redo buttons are disabled unless [canUndo] or [canRedo] holds. *)
Lemma ui_jumps_in_range (st : Editor.state) :
  in_range (Editor.history st) (Editor.currentIndex st) →
  (∀ i, i ∈ strip_indices st → in_range (Editor.history st) i)
  ∧ (canUndo st = true →
     in_range (Editor.history st) (Editor.currentIndex st + 1)
     ∧ Editor.currentIndex (onUndo st) = Editor.currentIndex st + 1)
  ∧ (canRedo st = true →
     in_range (Editor.history st) (Editor.currentIndex st - 1)
     ∧ Editor.currentIndex (onRedo st) = Editor.currentIndex st - 1).
Proof.
  unfold in_range, strip_indices, canUndo, canRedo, onUndo, onRedo.
  intros Hcur. split; [|split].
  - intros i (n & -> & Hn%elem_of_seq)%list_elem_of_fmap. lia.
  - intros Hundo%Z.ltb_lt. split; [lia|].
    apply jump_currentIndex.
  - intros Hredo%Z.ltb_lt. split; [lia|].
    apply jump_currentIndex.
Qed.

(** ** Worked scenarios *)

(** Three labels, A at the bottom and C on top: sending C to the back and
    then moving it forward once. *)
Example scenario_sendToBack_moveForward :
  let A := newAnnotation "A" 10 10 in
  let B := newAnnotation "B" 20 20 in
  let C := newAnnotation "C" 30 30 in
  sendToBack "C" [A; B; C] = [C; A; B]
  ∧ moveForward "C" [C; A; B] = [A; C; B].
Proof. by split. Qed.

(** Two labels that share an id: the pair moveForward, moveBackward does
    not undo itself, because the lookup stops at the first match. *)
Example scenario_shared_id :
  let A1 := newAnnotation "a" 10 10 in
  let A2 := newAnnotation "a" 20 20 in
  let B := newAnnotation "b" 30 30 in
  moveBackward "a" (moveForward "a" [B; A1; A2]) = [A2; B; A1].
Proof. done. Qed.

(** An empty history, two generated revisions, one step to the older one
    and one step back. *)
Example scenario_history :
  let analysis :=
    Fulfilled (AnalysisResult.mk "Compare regions" ["Revenue"] ["Bar"]) in
  let st0 := set_objective "Sales by region" initial_editor in
  let st1 :=
    handleGenerate (λ s, s) analysis (Fulfilled "v1") (Fulfilled ()) 1 1 st0 in
  let st2 :=
    handleGenerate (λ s, s) analysis (Fulfilled "v2") (Fulfilled ()) 2 2 st1 in
  (GeneratedImage.data <$> Editor.history st1) = ["v1"]
  ∧ Editor.currentIndex st1 = 0
  ∧ (GeneratedImage.data <$> Editor.history st2) = ["v2"; "v1"]
  ∧ Editor.currentIndex st2 = 0
  ∧ canUndo st2 = true
  ∧ Editor.currentIndex (onUndo st2) = 1
  ∧ canRedo (onUndo st2) = true
  ∧ Editor.currentIndex (onRedo (onUndo st2)) = 0.
Proof. by repeat split. Qed.

(** A label at (10,10) in a container 1000px wide and 500px high, dragged
    by 50px and 25px (5% on each axis) and released: with a 10px grid the
    snapped pixel position is (150, 80), committed as (15%, 16%). *)
Example scenario_drag_commit :
  let st :=
    dragged (Rect.mk 1000 500 0 0) (newAnnotation "a" 10 10)
      (PointerEvent.mk 100 100 1) (PointerEvent.mk 150 125 1) in
  ∃ a', Canvas.annotations (dispatch (onPointerUp (PointerEvent.mk 150 125 1)) st)
        = [a']
        ∧ (Annotation.x a' == 15)%Q ∧ (Annotation.y a' == 16)%Q.
Proof. simpl. eexists. by repeat split. Qed.

(** A label at (50,50) is painted at the centre of the exported bitmap. *)
Example scenario_export_centre :
  let st := initial_canvas sample_image [newAnnotation "a" 50 50] [] in
  ∃ canvas font x y,
    generateCanvas false true (Some (NaturalSize.mk 1600 900)) st
    = Fulfilled canvas
    ∧ HTMLCanvasElement.painted canvas !! 1%nat
      = Some (fillText font "#1e3a8a" "middle" "center" "New Text" x y)
    ∧ (x == 800)%Q ∧ (y == 450)%Q ∧ (Font.px font == 40)%Q.
Proof. simpl. do 4 eexists. by repeat split. Qed.

(** Editing the older of two revisions puts the result in front and moves
    the cursor to it; with the cursor off the list, the edit fails in its
    [catch] and the history stays as it was. *)
Example scenario_edit :
  let v1 := GeneratedImage.mk "1" "v1" "first" 1 Operational ModernSaaS in
  let v2 := GeneratedImage.mk "2" "v2" "second" 2 Strategic Minimalist in
  let st := set_history [v2; v1] 1 initial_editor in
  let st' := handleEdit "Use dark charts" (Fulfilled "v3") (Fulfilled ()) 3 3 st in
  let lost := handleJumpToHistory 5 st in
  Editor.history st'
  = [GeneratedImage.mk "3" "v3" "Use dark charts" 3 Operational ModernSaaS; v2; v1]
  ∧ Editor.currentIndex st' = 0
  ∧ Editor.history
      (handleEdit "Use dark charts" (Fulfilled "v3") (Fulfilled ()) 3 3 lost)
    = [v2; v1]
  ∧ is_Some
      (Editor.error
         (handleEdit "Use dark charts" (Fulfilled "v3") (Fulfilled ()) 3 3 lost)).
Proof. by repeat split. Qed.

(** * Further properties of the canvas *)

(** ** Snapping and dragging *)

Lemma inject_Z_gap (k m : Z) :
  k ≠ m → (inject_Z m + 1 <= inject_Z k)%Q ∨ (inject_Z k <= inject_Z m - 1)%Q.
Proof.
  intros Hne. destruct (Z.lt_total k m) as [Hlt | [-> | Hgt]]; [right | done | left].
  - assert (k <= m + -1) as Hle by lia. rewrite Zle_Qle in Hle.
    rewrite inject_Z_plus in Hle. change (inject_Z (-1)) with (-1)%Q in Hle. lra.
  - assert (m + 1 <= k) as Hle by lia. rewrite Zle_Qle in Hle.
    rewrite inject_Z_plus in Hle. change (inject_Z 1) with 1%Q in Hle. lra.
Qed.

(** X1. The snapped pixel position is the multiple of the 10px grid
    nearest to the raw position: it lies within 5px of it (a raw position
    exactly half way between two grid lines goes to the upper one), no
    grid line is closer, and a position already on the grid stays where it
    is. *)
Theorem snap_nearest (raw : Q) :
  on_grid (snap raw)
  ∧ (snap raw - 5 <= raw)%Q ∧ (raw < snap raw + 5)%Q
  ∧ (∀ k : Z,
       (Qabs (snap raw - raw) <= Qabs (inject_Z k * GRID_SIZE - raw))%Q)
  ∧ (on_grid raw → (snap raw == raw)%Q).
Proof.
  pose proof (Math_round_nearest (raw / GRID_SIZE)) as [Hlo Hhi].
  assert (raw / GRID_SIZE * 10 == raw)%Q as Hr by (unfold GRID_SIZE; field).
  unfold snap. set (m := Math_round (raw / GRID_SIZE)) in *.
  unfold GRID_SIZE in *.
  split; [by exists m|]. split; [lra|]. split; [lra|]. split.
  - intros k. destruct (decide (k = m)) as [->|Hne]; [apply Qle_refl|].
    apply inject_Z_gap in Hne.
    apply Qabs_case; intros _; apply Qabs_case; intros ?; destruct Hne; lra.
  - intros [k Hk]. unfold GRID_SIZE in Hk.
    assert (raw / 10 == inject_Z k)%Q as Hq by (rewrite Hk; field).
    rewrite Hq in Hlo, Hhi.
    destruct (decide (m = k)) as [Heq|Hne]; [rewrite Heq, Hk; reflexivity|].
    apply inject_Z_gap in Hne. destruct Hne; lra.
Qed.

Lemma handlePointerMove_again (e1 e2 : PointerEvent.t) (st : Canvas.state) :
  handlePointerMove e2 (handlePointerMove e1 st) = handlePointerMove e2 st.
Proof.
  unfold handlePointerMove.
  destruct (Canvas.isDragging st) eqn:Hd; [|by rewrite Hd].
  destruct (Canvas.selectedAnnotationId st) as [sel|] eqn:Hs; [|by rewrite Hd, Hs].
  destruct (Canvas.dragRectRef st) as [rect|] eqn:Hr; [|by rewrite Hd, Hs, Hr].
  simpl. destruct (String.eqb sel "") eqn:Ht; simpl.
  - by rewrite Hd, Hs, Hr, Ht.
  - by rewrite Ht.
Qed.

Lemma handlePointerMove_committed (e : PointerEvent.t) (st : Canvas.state) :
  Canvas.annotations (handlePointerMove e st) = Canvas.annotations st
  ∧ Canvas.comments (handlePointerMove e st) = Canvas.comments st.
Proof.
  unfold handlePointerMove.
  destruct (Canvas.isDragging st), (Canvas.selectedAnnotationId st) as [sel|],
    (Canvas.dragRectRef st); try done.
  by destruct (negb (truthy (Some sel))).
Qed.

Lemma moves_snoc (events : list PointerEvent.t) (e : PointerEvent.t)
    (st : Canvas.state) :
  moves (events ++ [e]) st = dispatch (onPointerMove e) st.
Proof.
  unfold moves. rewrite foldl_app. simpl. revert st.
  induction events as [|e0 events IH] using rev_ind; intros st; [done|].
  rewrite foldl_app. simpl. by rewrite handlePointerMove_again.
Qed.

Lemma moves_committed (events : list PointerEvent.t) (st : Canvas.state) :
  Canvas.annotations (moves events st) = Canvas.annotations st
  ∧ Canvas.comments (moves events st) = Canvas.comments st.
Proof.
  unfold moves. revert st.
  induction events as [|e0 events IH]; intros st; [done|].
  cbn [foldl]. destruct (IH (dispatch (onPointerMove e0) st)) as [Ha Hc].
  rewrite Ha, Hc. apply handlePointerMove_committed.
Qed.

(** X2. Pointer moves do not accumulate: after any run of move events the
    canvas is in the state the last event alone would have produced, and
    no run of moves changes the committed annotations or comments. *)
Theorem moves_keep_last (events : list PointerEvent.t) (e : PointerEvent.t)
    (st : Canvas.state) :
  moves (events ++ [e]) st = dispatch (onPointerMove e) st
  ∧ Canvas.annotations (moves events st) = Canvas.annotations st
  ∧ Canvas.comments (moves events st) = Canvas.comments st.
Proof.
  split; [apply moves_snoc | apply moves_committed].
Qed.

Lemma with_position_same (a : Annotation.t) :
  with_position a (Annotation.x a) (Annotation.y a) = a.
Proof. by destruct a. Qed.

Lemma find_has_id (id : string) (l : list Annotation.t) (ann : Annotation.t) :
  List.find (has_id id) l = Some ann → ann ∈ l ∧ Annotation.id ann = id.
Proof.
  induction l as [|a l IH]; simpl; [done|].
  destruct (has_id id a) eqn:Ha.
  - intros [= <-]. split; [left | by apply has_id_true].
  - intros [Hin Hid]%IH. split; [by right | done].
Qed.

Lemma find_absent (id : string) (l : list Annotation.t) :
  List.find (has_id id) l = None ↔ misses (has_id id) l.
Proof.
  unfold misses. induction l as [|a l IH]; simpl.
  - split; [constructor | done].
  - destruct (has_id id a) eqn:Ha.
    + split; [done|]. intros H. apply Forall_cons in H as [H _]. congruence.
    + rewrite IH. split; [by constructor | by intros [_ ?]%Forall_cons].
Qed.

Lemma NoDup_same_id (l : list Annotation.t) (a b : Annotation.t) :
  NoDup (Annotation.id <$> l) → a ∈ l → b ∈ l →
  Annotation.id a = Annotation.id b → a = b.
Proof.
  induction l as [|c l IH]; simpl; intros Hnd Ha Hb Hid; [by apply elem_of_nil in Ha|].
  apply NoDup_cons in Hnd as [Hc Hnd].
  apply elem_of_cons in Ha as [->|Ha]; apply elem_of_cons in Hb as [->|Hb];
    try done.
  - exfalso. apply Hc. rewrite Hid. by apply list_elem_of_fmap_2.
  - exfalso. apply Hc. rewrite <- Hid. by apply list_elem_of_fmap_2.
  - by apply IH.
Qed.



(** X4. Pressing and releasing without a move in between never changes
    the annotation list when ids are distinct, whichever id, container or
    tool is involved: a plain click on a label does not move it. *)
Theorem press_release_keeps_annotations (down up : PointerEvent.t)
    (id : string) (container : option Rect.t) (st : Canvas.state) :
  NoDup (Annotation.id <$> Canvas.annotations st) →
  Canvas.isDragging st = false →
  Canvas.annotations (gesture down id container [] up st)
  = Canvas.annotations st.
Proof.
  intros Hnd Hidle. unfold gesture, moves. simpl.
  unfold handlePointerDown.
  destruct (Canvas.activeTool st) eqn:Htool;
    [|by rewrite committed_idle by (by left)..].
  destruct container as [rect|]; [|by rewrite committed_idle by (by left)].
  destruct (List.find (has_id id) (Canvas.annotations st)) as [ann|] eqn:Hfind;
    [|by rewrite committed_idle by (by left)].
  unfold committed. simpl.
  destruct (String.eqb id ""); simpl; [done|].
  apply find_has_id in Hfind as [Hin Hid].
  rewrite <- (list_fmap_id (Canvas.annotations st)) at 2.
  apply list_fmap_ext. intros i a Hi. simpl.
  destruct (has_id id a) eqn:Ha; [|done].
  apply has_id_true in Ha.
  assert (a = ann) as ->.
  { eapply NoDup_same_id; [done | by eapply list_elem_of_lookup_2 | done | congruence]. }
  apply with_position_same.
Qed.

(** ** Placing and deleting *)



(** X6. Placing a label with the text tool and deleting it again gives
    back the annotation list as it was, with nothing selected, provided
    the id drawn from the clock was not already in use. *)
Theorem place_then_delete (e : MouseEvent.t) (rect : Rect.t)
    (now_id now_ts : Z) (ui : CanvasUI.state) :
  Canvas.isDragging (CanvasUI.canvas ui) = false →
  Canvas.activeTool (CanvasUI.canvas ui) = tool_text →
  pretty now_id ∉ Annotation.id <$> Canvas.annotations (CanvasUI.canvas ui) →
  let st' :=
    deleteAnnotation (pretty now_id)
      (CanvasUI.canvas (handleImageClick e (Some rect) now_id now_ts ui)) in
  Canvas.annotations st' = Canvas.annotations (CanvasUI.canvas ui)
  ∧ Canvas.selectedAnnotationId st' = None.
Proof.
  intros Hidle Htool Hfresh. simpl. unfold handleImageClick.
  rewrite Hidle, Htool. simpl. split; [|done].
  rewrite filter_app.
  rewrite filter_cons_False, filter_nil, app_nil_r.
  - apply misses_has_id in Hfresh.
    apply (deleteAnnotation_absent (pretty now_id) (CanvasUI.canvas ui) Hfresh).
  - unfold has_id. simpl. rewrite String.eqb_refl. simpl. tauto.
Qed.

(** ** Comments *)

Lemma toggled_toggled (c : Comment.t) : toggled (toggled c) = c.
Proof. destruct c as [i x y t a r ts]. unfold toggled. simpl. by rewrite negb_involutive. Qed.

(** X8. Editing a comment's text and toggling its resolved flag never
    move, re-author, re-date or re-identify any pin; a text edit leaves
    every resolved flag alone and a toggle leaves every text alone; of two
    text edits of the same id the later one wins, and toggling twice gives
    back the list. *)
Theorem comment_edits_keep_pins (id text text' : string) (cs : list Comment.t) :
  pin <$> updateComment id text cs = pin <$> cs
  ∧ Comment.resolved <$> updateComment id text cs = Comment.resolved <$> cs
  ∧ pin <$> toggleResolveComment id cs = pin <$> cs
  ∧ Comment.text <$> toggleResolveComment id cs = Comment.text <$> cs
  ∧ updateComment id text' (updateComment id text cs) = updateComment id text' cs
  ∧ toggleResolveComment id (toggleResolveComment id cs) = cs.
Proof.
  unfold updateComment, toggleResolveComment.
  rewrite <- !list_fmap_compose.
  repeat split.
  1-4: apply list_fmap_ext; intros i c _; simpl;
       by destruct (comment_has_id id c).
  - apply list_fmap_ext. intros i c _. simpl.
    destruct (comment_has_id id c) eqn:Hc; simpl.
    + unfold comment_has_id in *. simpl. by rewrite Hc.
    + by rewrite Hc.
  - rewrite <- (list_fmap_id cs) at 2.
    apply list_fmap_ext. intros i c _. simpl.
    destruct (comment_has_id id c) eqn:Hc; simpl.
    + unfold comment_has_id in *. simpl. rewrite Hc. apply toggled_toggled.
    + by rewrite Hc.
Qed.

Lemma filter_all {A} (P : A → Prop) `{!∀ x, Decision (P x)} (l : list A) :
  Forall P l → filter P l = l.
Proof.
  induction 1 as [|x l Hx _ IH]; [done|].
  rewrite filter_cons_True by done. by f_equal.
Qed.



Lemma insert_newest_first_Permutation (c : Comment.t) (l : list Comment.t) :
  insert_newest_first c l ≡ₚ c :: l.
Proof.
  induction l as [|d l IH]; simpl; [done|].
  destruct (Comment.timestamp c <? Comment.timestamp d); [|done].
  by rewrite IH, Permutation_swap.
Qed.

Lemma insert_newest_first_sorted (c : Comment.t) (l : list Comment.t) :
  StronglySorted newer_or_same l →
  StronglySorted newer_or_same (insert_newest_first c l).
Proof.
  induction 1 as [|d l Hl IH Hd]; simpl.
  - repeat constructor.
  - destruct (Z.ltb_spec (Comment.timestamp c) (Comment.timestamp d)).
    + constructor; [done|].
      rewrite insert_newest_first_Permutation. constructor; [|done].
      unfold newer_or_same. lia.
    + constructor; [by constructor|]. constructor; [unfold newer_or_same; lia|].
      eapply Forall_impl; [done|]. unfold newer_or_same. intros; lia.
Qed.

Lemma insert_newest_first_filter (t : Z) (c : Comment.t) (l : list Comment.t) :
  StronglySorted newer_or_same l →
  filter (λ d, Comment.timestamp d = t) (insert_newest_first c l)
  = filter (λ d, Comment.timestamp d = t) (c :: l).
Proof.
  induction 1 as [|d l Hl IH Hd]; simpl; [done|].
  destruct (Z.ltb_spec (Comment.timestamp c) (Comment.timestamp d)); [|done].
  rewrite !filter_cons. rewrite IH. rewrite !filter_cons.
  repeat case_decide; try done; lia.
Qed.

(** X10. The sidebar lists every comment exactly once, newest first, and
    comments with the same timestamp in the order they were added. *)
Theorem reviewList_sorted_stable (cs : list Comment.t) :
  reviewList cs ≡ₚ cs
  ∧ StronglySorted newer_or_same (reviewList cs)
  ∧ ∀ t, filter (λ c, Comment.timestamp c = t) (reviewList cs)
         = filter (λ c, Comment.timestamp c = t) cs.
Proof.
  unfold reviewList. induction cs as [|c cs (Hp & Hs & Hf)]; simpl.
  - repeat split; constructor.
  - split; [|split].
    + by rewrite insert_newest_first_Permutation, Hp.
    + by apply insert_newest_first_sorted.
    + intros t. rewrite insert_newest_first_filter by done.
      rewrite !filter_cons. by rewrite Hf.
Qed.


Lemma press_release_keeps_annotations_witness :
  let st := initial_canvas sample_image
              [newAnnotation "a" 10 10; newAnnotation "b" 20 20] [] in
  Canvas.annotations
    (gesture (PointerEvent.mk 100 100 1) "a" (Some (Rect.mk 1000 500 0 0)) []
       (PointerEvent.mk 100 100 1) st)
  = Canvas.annotations st.
Proof.
  apply press_release_keeps_annotations; [compute_done | reflexivity].
Defined.


Lemma place_then_delete_witness :
  let ui :=
    CanvasUI.mk
      (set_tool tool_text
         (initial_canvas sample_image [newAnnotation "a" 10 10] []))
      None false in
  Canvas.annotations
    (deleteAnnotation (pretty 1700000000005)
       (CanvasUI.canvas
          (handleImageClick (MouseEvent.mk 300 200)
             (Some (Rect.mk 1000 500 50 100)) 1700000000005 1700000000005 ui)))
  = [newAnnotation "a" 10 10].
Proof.
  apply (place_then_delete (MouseEvent.mk 300 200) (Rect.mk 1000 500 50 100)
           1700000000005 1700000000005
           (CanvasUI.mk
              (set_tool tool_text
                 (initial_canvas sample_image [newAnnotation "a" 10 10] []))
              None false));
    [reflexivity | reflexivity | compute_done].
Defined.

(** X7. deleteAnnotation(id) removes every annotation of that id and
    nothing else: the rest stay, in their order, and no annotation is left
    selected afterwards, even when another one was. *)
Theorem deleteAnnotation_removes (id : string) (st : Canvas.state) :
  let l := Canvas.annotations st in
  let l' := Canvas.annotations (deleteAnnotation id st) in
  (id ∉ Annotation.id <$> l')
  ∧ l' = others id l
  ∧ (l' `sublist_of` l)
  ∧ (∀ a, a ∈ l → Annotation.id a ≠ id → a ∈ l')
  ∧ Canvas.comments (deleteAnnotation id st) = Canvas.comments st
  ∧ Canvas.selectedAnnotationId (deleteAnnotation id st) = None.
Proof.
  simpl. repeat split.
  - intros (a & Hid & [Ha _]%list_elem_of_filter)%list_elem_of_fmap.
    apply negb_prop_elim in Ha. apply Ha. apply Is_true_true.
    by apply has_id_true.
  - unfold others. apply list_filter_iff. intros a.
    destruct (has_id id a); simpl; split; done.
  - apply sublist_filter.
  - intros a Ha Hne. apply list_elem_of_filter. split; [|done].
    apply negb_prop_intro. intros Heq%Is_true_true%has_id_true. done.
Qed.

(** * Further properties of the editor *)

(** ** Failures and the loading flag *)

Lemma message_or_nonempty (fallback : string) (err : JsError.t) :
  fallback ≠ "" → message_or fallback err ≠ "".
Proof.
  intros Hf. unfold message_or. destruct (JsError.message err) as [m|]; [|done].
  destruct (String.eqb_spec m ""); done.
Qed.

Lemma nonempty_length_test {A} (l : list A) :
  l ≠ [] → (Z.of_nat (length l) =? 0) = false.
Proof. destruct l; [done|]. intros _. apply Z.eqb_neq. simpl. lia. Qed.

(** X16. When the analysis or the generation rejects in handleGenerate,
    or the edit rejects in handleEdit, the history and the cursor are left
    exactly as they were, a non-empty error message is shown (the error's
    own message, or the handler's fallback when that is missing or empty)
    and loading is switched off.  handleEdit with the cursor off the list
    fails the same way before anything is requested. *)
Theorem failures_keep_history (trim : string → string) (st : Editor.state)
    (err : JsError.t) (saved : Settled ()) (now_id now_ts : Z) :
  (∀ analysis generated,
     Editor.isLoading st = false → trim (Editor.objective st) ≠ "" →
     analysis = Threw err
     ∨ (∃ a, analysis = Fulfilled a) ∧ generated = Threw err →
     let st' :=
       handleGenerate trim analysis generated saved now_id now_ts st in
     Editor.history st' = Editor.history st
     ∧ Editor.currentIndex st' = Editor.currentIndex st
     ∧ Editor.error st' = Some (message_or "Generation failed" err)
     ∧ message_or "Generation failed" err ≠ ""
     ∧ Editor.isLoading st' = false ∧ Editor.loadingStep st' = 0)
  ∧ (∀ editPrompt edited,
       Editor.history st ≠ [] →
       is_Some (at_index (Editor.history st) (Editor.currentIndex st)) →
       edited = Threw err →
       let st' := handleEdit editPrompt edited saved now_id now_ts st in
       Editor.history st' = Editor.history st
       ∧ Editor.currentIndex st' = Editor.currentIndex st
       ∧ Editor.error st' = Some (message_or "Edit failed" err)
       ∧ message_or "Edit failed" err ≠ ""
       ∧ Editor.isLoading st' = false ∧ Editor.loadingStep st' = 0)
  ∧ (∀ editPrompt edited,
       Editor.history st ≠ [] →
       at_index (Editor.history st) (Editor.currentIndex st) = None →
       let st' := handleEdit editPrompt edited saved now_id now_ts st in
       Editor.history st' = Editor.history st
       ∧ Editor.currentIndex st' = Editor.currentIndex st
       ∧ is_Some (Editor.error st')
       ∧ Editor.isLoading st' = false ∧ Editor.loadingStep st' = 0).
Proof.
  split; [|split].
  - intros analysis generated Hload Hobj Hfail st'. subst st'.
    unfold handleGenerate. rewrite Hload.
    apply String.eqb_neq in Hobj. rewrite Hobj. simpl.
    destruct Hfail as [-> | [[a ->] ->]]; simpl;
      repeat split; by apply message_or_nonempty.
  - intros editPrompt edited Hne [cur Hcur] -> st'. subst st'.
    unfold handleEdit. rewrite Hcur, nonempty_length_test by done. simpl.
    repeat split. by apply message_or_nonempty.
  - intros editPrompt edited Hne Hcur st'. subst st'.
    unfold handleEdit. rewrite Hcur, nonempty_length_test by done. simpl.
    repeat split. by eexists.
Qed.

(** X17. Once handleGenerate has passed its guard, and once handleEdit has
    found a non-empty history, the loading flag ends switched off exactly
    when every promise the handler gets to await settles; and whenever it
    ends switched off the loading step is back at 0.  A call that never
    settles leaves the editor loading for good. *)
Theorem loading_cleared_iff (trim : string → string) (st : Editor.state)
    (now_id now_ts : Z) :
  (∀ analysis generated saved,
     Editor.isLoading st = false → trim (Editor.objective st) ≠ "" →
     let st' :=
       handleGenerate trim analysis generated saved now_id now_ts st in
     (Editor.isLoading st' = false ↔ generate_settles analysis generated saved)
     ∧ (Editor.isLoading st' = false → Editor.loadingStep st' = 0))
  ∧ (∀ editPrompt edited saved,
       Editor.history st ≠ [] →
       let st' := handleEdit editPrompt edited saved now_id now_ts st in
       (Editor.isLoading st' = false
        ↔ edit_settles (at_index (Editor.history st) (Editor.currentIndex st))
            edited saved)
       ∧ (Editor.isLoading st' = false → Editor.loadingStep st' = 0)).
Proof.
  split.
  - intros analysis generated saved Hload Hobj st'. subst st'.
    unfold handleGenerate. rewrite Hload.
    apply String.eqb_neq in Hobj. rewrite Hobj. simpl.
    unfold generate_settles, settles.
    destruct analysis as [a| |]; simpl; [|by split..].
    destruct generated as [b| |]; simpl; [|by split..].
    destruct saved; simpl; by split.
  - intros editPrompt edited saved Hne st'. subst st'.
    unfold handleEdit. rewrite nonempty_length_test by done.
    unfold edit_settles, settles.
    destruct (at_index (Editor.history st) (Editor.currentIndex st)); simpl;
      [|by split].
    destruct edited as [b| |]; simpl; [|by split..].
    destruct saved; simpl; by split.
Qed.

(** ** The cursor stays on the history *)

Lemma cursor_ok_push (h : list GeneratedImage.t) (entry : GeneratedImage.t)
    (st : Editor.state) :
  Editor.history st = entry :: h → Editor.currentIndex st = 0 → cursor_ok st.
Proof.
  intros Hh Hc. left. unfold in_range. rewrite Hh, Hc. simpl. lia.
Qed.

Lemma cursor_ok_same (st st' : Editor.state) :
  Editor.history st' = Editor.history st →
  Editor.currentIndex st' = Editor.currentIndex st →
  cursor_ok st → cursor_ok st'.
Proof. unfold cursor_ok. by intros -> ->. Qed.

Lemma handleGenerate_cursor (trim : string → string)
    (analysis : Settled AnalysisResult.t) (generated : Settled string)
    (saved : Settled ()) (now_id now_ts : Z) (st : Editor.state) :
  cursor_ok st →
  cursor_ok (handleGenerate trim analysis generated saved now_id now_ts st).
Proof.
  intros Hok. unfold handleGenerate.
  destruct (Editor.isLoading st || String.eqb (trim (Editor.objective st)) "");
    [done|].
  destruct analysis as [a| |]; [|by eapply cursor_ok_same..].
  destruct generated as [b| |]; [|by eapply cursor_ok_same..].
  eapply cursor_ok_push; apply push_and_save_history.
Qed.

Lemma handleEdit_cursor (editPrompt : string) (edited : Settled string)
    (saved : Settled ()) (now_id now_ts : Z) (st : Editor.state) :
  cursor_ok st →
  cursor_ok (handleEdit editPrompt edited saved now_id now_ts st).
Proof.
  intros Hok. unfold handleEdit.
  destruct (Z.of_nat (length (Editor.history st)) =? 0); [done|].
  destruct (at_index (Editor.history st) (Editor.currentIndex st));
    [|by eapply cursor_ok_same].
  destruct edited as [b| |]; [|by eapply cursor_ok_same..].
  eapply cursor_ok_push; apply push_and_save_history.
Qed.

Lemma jump_history (index : Z) (st : Editor.state) :
  Editor.history (handleJumpToHistory index st) = Editor.history st.
Proof.
  unfold handleJumpToHistory.
  by destruct (at_index (Editor.history st) index).
Qed.

Lemma jump_in_range_cursor (index : Z) (st : Editor.state) :
  in_range (Editor.history st) index →
  cursor_ok (handleJumpToHistory index st).
Proof.
  intros Hin. left. by rewrite jump_history, jump_currentIndex.
Qed.

Lemma fire_cursor (trim : string → string) (st : Editor.state)
    (ev : EditorEvent) :
  cursor_ok st → cursor_ok (fire trim st ev).
Proof.
  intros Hok.
  destruct ev as [analysis generated saved n1 n2
                 | prompt edited saved n1 n2 | | | index]; simpl.
  - by apply handleGenerate_cursor.
  - by apply handleEdit_cursor.
  - destruct (canUndo st) eqn:Hundo; [|done].
    apply jump_in_range_cursor.
    unfold canUndo in Hundo. apply Z.ltb_lt in Hundo.
    destruct Hok as [Hin | [Hnil Hz]]; unfold in_range in *; [lia|].
    rewrite Hnil, Hz in Hundo. simpl in Hundo. lia.
  - destruct (canRedo st) eqn:Hredo; [|done].
    apply jump_in_range_cursor.
    unfold canRedo in Hredo. apply Z.ltb_lt in Hredo.
    destruct Hok as [Hin | [Hnil Hz]]; unfold in_range in *; lia.
  - case_bool_decide as Hin; [|done].
    apply jump_in_range_cursor.
    unfold strip_indices in Hin.
    apply list_elem_of_fmap in Hin as (n & -> & Hn%elem_of_seq).
    unfold in_range. lia.
Qed.

Lemma restore_cursor (p : Project.t) (wb : Workbench.state) :
  Editor.currentIndex (Workbench.editor wb) = 0 →
  cursor_ok (Workbench.editor wb) →
  cursor_ok (Workbench.editor (restore p wb)).
Proof.
  intros Hz Hok. unfold restore. simpl.
  destruct (Project.history p) as [[|h hs]|].
  - destruct (Project.thumbnail p) as [t|]; [|done].
    destruct (String.eqb t ""); [done|].
    left. unfold in_range. simpl. lia.
  - left. unfold in_range. simpl. lia.
  - destruct (Project.thumbnail p) as [t|]; [|done].
    destruct (String.eqb t ""); [done|].
    left. unfold in_range. simpl. lia.
Qed.

Lemma mount_cursor (projectId : option string) (db : Db.t) :
  cursor_ok (Workbench.editor (mount projectId db)).
Proof.
  unfold mount.
  destruct projectId as [id|]; [|by right].
  destruct (String.eqb id ""); [by right|].
  unfold loadProject. destruct (getProject id db); [|by right].
  apply restore_cursor; [done | by right].
Qed.

(** X18. From the editor as mounted on any project and any store, and
    through any sequence of generations, edits, enabled undo and redo
    clicks and version-strip clicks (each taken as a whole, one after the
    other, whatever way its calls settle), the cursor names an entry of the
    history or rests at 0 on an empty history; so whenever the canvas is
    rendered the image it is given exists. *)
Theorem cursor_invariant (trim : string → string) (projectId : option string)
    (db : Db.t) (events : list EditorEvent) :
  let st := run trim events (Workbench.editor (mount projectId db)) in
  cursor_ok st
  ∧ (Editor.history st ≠ [] →
     is_Some (at_index (Editor.history st) (Editor.currentIndex st))).
Proof.
  simpl.
  assert (cursor_ok (run trim events (Workbench.editor (mount projectId db))))
    as Hok.
  { unfold run. generalize (mount_cursor projectId db).
    generalize (Workbench.editor (mount projectId db)).
    induction events as [|ev events IH]; intros st Hst; [done|].
    simpl. apply IH. by apply fire_cursor. }
  split; [done|].
  intros Hne. apply at_index_in_range.
  by destruct Hok as [Hin | [Hnil _]].
Qed.

(** ** Saving and reopening a project *)

Lemma pretty_N_go_nonempty (x : N) (s : string) :
  s ≠ "" → pretty_N_go x s ≠ "".
Proof.
  revert s. induction (N.lt_wf_0 x) as [x _ IH]; intros s Hs.
  assert (x = 0 ∨ 0 < x)%N as [->|Hpos] by lia.
  - by rewrite pretty_N_go_0.
  - rewrite pretty_N_go_step by done. apply IH; [by apply N.div_lt | done].
Qed.

Lemma pretty_Z_nonempty (z : Z) : pretty z ≠ "".
Proof.
  destruct z as [|p|p]; [done| |done].
  unfold pretty, pretty_Z, pretty, pretty_positive, pretty, pretty_N.
  case_decide; [done|].
  rewrite pretty_N_go_step by lia. by apply pretty_N_go_nonempty.
Qed.

Lemma project_record_id_nonempty (newImage : option string)
    (clock : SaveClock.t) (wb : Workbench.state) :
  Project.id (project_record newImage clock wb) ≠ "".
Proof.
  simpl. unfold or_else.
  destruct (truthy (Project.id <$> Workbench.project wb)) eqn:H1.
  - destruct (Project.id <$> Workbench.project wb) as [s|]; [|done].
    simpl. by apply truthy_Some.
  - destruct (truthy (Workbench.projectId wb)) eqn:H2.
    + destruct (Workbench.projectId wb) as [s|]; [|done].
      simpl. by apply truthy_Some.
    + simpl. apply pretty_Z_nonempty.
Qed.

Lemma project_record_id_newImage (n1 n2 : option string) (clock : SaveClock.t)
    (wb : Workbench.state) :
  Project.id (project_record n1 clock wb)
  = Project.id (project_record n2 clock wb).
Proof. done. Qed.

Lemma saveProjectState_writes (newImage : option string) (clock : SaveClock.t)
    (wb : Workbench.state) (db : Db.t) :
  can_save clock wb db →
  ∃ p,
    saveProjectState newImage clock wb db
    = (Fulfilled (),
       with_saved p (SaveClock.now_saved clock) wb,
       Db.mk (<[Project.id p := p]> (Db.projects db)) (Db.sources db))
    ∧ (p = project_record newImage clock wb
       ∨ p = touch (SaveClock.now_put clock)
               (project_record newImage clock wb)).
Proof.
  intros Hcan. unfold saveProjectState, can_save in *.
  destruct (Workbench.project wb) as [old|] eqn:Hold.
  - unfold updateProject. eexists. split; [reflexivity | by right].
  - unfold createProject.
    rewrite (Hcan eq_refl
             : Db.projects db !! Project.id (project_record newImage clock wb)
               = None).
    eexists. split; [reflexivity | by left].
Qed.

Lemma mount_stored (id : string) (p : Project.t) (db : Db.t) :
  id ≠ "" → Db.projects db !! id = Some p →
  mount (Some id) db = restore p (fresh_workbench (Some id)).
Proof.
  intros Hne Hp. unfold mount, loadProject, getProject.
  apply String.eqb_neq in Hne. by rewrite Hne, Hp.
Qed.

Lemma restore_content (p : Project.t) (wb : Workbench.state) (id : string)
    (newImage : option string) (clock : SaveClock.t) :
  p = project_record newImage clock wb
  ∨ p = touch (SaveClock.now_put clock) (project_record newImage clock wb) →
  let wb' := restore p (fresh_workbench (Some id)) in
  Editor.objective (Workbench.editor wb') = Editor.objective (Workbench.editor wb)
  ∧ Editor.level (Workbench.editor wb') = Editor.level (Workbench.editor wb)
  ∧ Editor.style (Workbench.editor wb') = Editor.style (Workbench.editor wb)
  ∧ Workbench.dataSources wb' = Workbench.dataSources wb
  ∧ Workbench.annotations wb' = Workbench.annotations wb
  ∧ Workbench.comments wb' = Workbench.comments wb
  ∧ Editor.currentIndex (Workbench.editor wb') = 0
  ∧ Workbench.project wb' = Some p.
Proof.
  intros [-> | ->]; simpl; unfold restore; simpl;
    destruct (Editor.history (Workbench.editor wb)) as [|h hs]; simpl;
    repeat split;
    repeat (match goal with |- context [match ?x with _ => _ end] => destruct x end; simpl; try done).
Qed.

Lemma at_index_nil {A} (i : Z) : at_index (@nil A) i = None.
Proof. unfold at_index. by destruct (0 <=? i). Qed.

Lemma restore_history (p : Project.t) (wb : Workbench.state) (id : string)
    (clock : SaveClock.t) :
  p = project_record None clock wb
  ∨ p = touch (SaveClock.now_put clock) (project_record None clock wb) →
  Editor.history (Workbench.editor (restore p (fresh_workbench (Some id))))
  = Editor.history (Workbench.editor wb).
Proof.
  intros [-> | ->]; unfold restore; simpl;
    destruct (Editor.history (Workbench.editor wb)) eqn:Hh; simpl; try done;
    by rewrite at_index_nil.
Qed.

(** X20. A save without a new image (the manual save) that can write
    fulfils, stores the project under its id and touches no other project;
    mounting the editor on that id afterwards brings back the objective,
    level, style, data sources, annotations, comments and history that
    were saved, with the cursor on the newest entry: the cursor position
    itself is not saved. *)
Theorem save_then_reopen (clock : SaveClock.t) (wb : Workbench.state)
    (db : Db.t) :
  can_save clock wb db →
  ∃ p db',
    saveProjectState None clock wb db
    = (Fulfilled (), with_saved p (SaveClock.now_saved clock) wb, db')
    ∧ getProject (Project.id p) db' = Some p
    ∧ (∀ id, id ≠ Project.id p → getProject id db' = getProject id db)
    ∧ content (mount (Some (Project.id p)) db') = content wb
    ∧ Editor.currentIndex (Workbench.editor (mount (Some (Project.id p)) db'))
      = 0.
Proof.
  intros Hcan.
  destruct (saveProjectState_writes None clock wb db Hcan) as (p & Hsave & Hp).
  exists p, (Db.mk (<[Project.id p := p]> (Db.projects db)) (Db.sources db)).
  split; [exact Hsave|].
  assert (Project.id p ≠ "") as Hid.
  { destruct Hp as [-> | ->]; apply project_record_id_nonempty. }
  rewrite (mount_stored (Project.id p) p) by (done || apply lookup_insert_eq).
  unfold getProject. split; [apply lookup_insert_eq|].
  split; [by intros id Hne; apply lookup_insert_ne|].
  destruct (restore_content p wb (Project.id p) None clock Hp)
    as (Ho & Hl & Hs & Hd & Ha & Hc & Hi & _).
  split; [|done]. unfold content. rewrite Ho, Hl, Hs, Hd, Ha, Hc.
  by rewrite (restore_history p wb (Project.id p) clock Hp).
Qed.

Lemma saved_fields (newImage : option string) (clock : SaveClock.t)
    (wb : Workbench.state) (p : Project.t) :
  p = project_record newImage clock wb
  ∨ p = touch (SaveClock.now_put clock) (project_record newImage clock wb) →
  Project.history p = Some (Editor.history (Workbench.editor wb))
  ∧ Project.dataSources p = Some (Workbench.dataSources wb)
  ∧ Project.thumbnail p
    = or_else newImage
        (GeneratedImage.data
           <$> at_index (Editor.history (Workbench.editor wb))
                 (Editor.currentIndex (Workbench.editor wb)))
  ∧ Project.id p = Project.id (project_record None clock wb)
  ∧ Project.id p ≠ "".
Proof.
  intros [-> | ->]; repeat split; apply project_record_id_nonempty.
Qed.

Lemma handleGenerate_pushes (trim : string → string) (a : AnalysisResult.t)
    (base64 : string) (saved : Settled ()) (now_id now_ts : Z)
    (st : Editor.state) :
  Editor.isLoading st = false → trim (Editor.objective st) ≠ "" →
  ∃ entry,
    Editor.history
      (handleGenerate trim (Fulfilled a) (Fulfilled base64) saved now_id
         now_ts st)
    = entry :: Editor.history st
    ∧ GeneratedImage.data entry = base64
    ∧ Editor.currentIndex
        (handleGenerate trim (Fulfilled a) (Fulfilled base64) saved now_id
           now_ts st)
      = 0.
Proof.
  intros Hload Hobj. unfold handleGenerate. rewrite Hload.
  apply String.eqb_neq in Hobj. rewrite Hobj. simpl.
  eexists. rewrite (proj1 (push_and_save_history _ _ _ _ _)),
    (proj2 (push_and_save_history _ _ _ _ _)). by repeat split.
Qed.

(** X21. A successful handleGenerate shows the new revision in front of
    the history, but the project it saves carries the history as it was
    before the push, with the new image only as the thumbnail.  Mounting
    the editor on that project afterwards shows the old history without
    the new revision when the old history was not empty, and a single
    entry made from the thumbnail when it was. *)
Theorem generate_then_reopen (trim : string → string) (a : AnalysisResult.t)
    (base64 : string) (clock : SaveClock.t) (now_id now_ts : Z)
    (wb : Workbench.state) (db : Db.t) :
  let ed := Workbench.editor wb in
  Editor.isLoading ed = false → trim (Editor.objective ed) ≠ "" →
  base64 ≠ "" → can_save clock wb db →
  let result :=
    generateAndSave trim (Fulfilled a) (Fulfilled base64) clock now_id now_ts
      wb db in
  ∃ entry p,
    Editor.history (Workbench.editor result.1) = entry :: Editor.history ed
    ∧ GeneratedImage.data entry = base64
    ∧ Workbench.project result.1 = Some p
    ∧ getProject (Project.id p) result.2 = Some p
    ∧ Project.history p = Some (Editor.history ed)
    ∧ Project.thumbnail p = Some base64
    ∧ (Editor.history ed ≠ [] →
       Editor.history
         (Workbench.editor (mount (Some (Project.id p)) result.2))
       = Editor.history ed)
    ∧ (Editor.history ed = [] →
       ∃ only,
         Editor.history
           (Workbench.editor (mount (Some (Project.id p)) result.2))
         = [only]
         ∧ GeneratedImage.data only = base64
         ∧ GeneratedImage.id only = Project.id p).
Proof.
  intros ed Hload Hobj Hb64 Hcan result. subst result ed.
  unfold generateAndSave. rewrite Hload.
  pose proof Hobj as Hobj'. apply String.eqb_neq in Hobj'. rewrite Hobj'.
  cbn [orb].
  destruct (saveProjectState_writes (Some base64) clock wb db Hcan)
    as (p & -> & Hp).
  destruct (saved_fields (Some base64) clock wb p Hp)
    as (Hh & _ & Ht & _ & Hid).
  assert (or_else (Some base64)
            (GeneratedImage.data
               <$> at_index (Editor.history (Workbench.editor wb))
                     (Editor.currentIndex (Workbench.editor wb)))
          = Some base64) as Hthumb.
  { unfold or_else. by rewrite (proj2 (truthy_Some base64) Hb64). }
  rewrite Hthumb in Ht.
  lazy beta iota zeta delta [fst snd].
  destruct (handleGenerate_pushes trim a base64 (Fulfilled ()) now_id now_ts
              (Workbench.editor wb) Hload Hobj) as (entry & He & Hd & _).
  exists entry, p.
  rewrite (mount_stored (Project.id p) p) by (done || apply lookup_insert_eq).
  unfold getProject. simpl.
  repeat split; try done.
  - apply lookup_insert_eq.
  - intros Hne. unfold restore. simpl. rewrite Hh.
    by destruct (Editor.history (Workbench.editor wb)).
  - intros Hnil. unfold restore. simpl. rewrite Hh, Ht, Hnil.
    apply String.eqb_neq in Hb64. rewrite Hb64. by eexists.
Qed.

Lemma restore_dataSources (p : Project.t) (wb : Workbench.state)
    (l : list DataSource.t) :
  Project.dataSources p = Some l → Workbench.dataSources (restore p wb) = l.
Proof. unfold restore. simpl. by intros ->. Qed.

Lemma can_save_sources (clock : SaveClock.t) (wb : Workbench.state)
    (db : Db.t) (source : DataSource.t) :
  can_save clock wb db → can_save clock wb (addDataSource source db).2.
Proof.
  unfold can_save, addDataSource.
  by destruct (Db.sources db !! DataSource.id source).
Qed.

(** X22. handleConnectSource and handleDeleteSource change the editor's
    list of data sources, but the project each of them saves carries the
    list as it was before the change: mounting the editor on that project
    afterwards shows the old list, without the source just connected and
    with the source just deleted. *)
Theorem sources_then_reopen (clock : SaveClock.t) (wb : Workbench.state)
    (db : Db.t) :
  can_save clock wb db →
  (∀ source,
     let result := handleConnectSource source clock wb db in
     Workbench.dataSources result.1 = Workbench.dataSources wb ++ [source]
     ∧ Workbench.showDataModal result.1 = false
     ∧ ∃ p,
         Workbench.project result.1 = Some p
         ∧ getProject (Project.id p) result.2 = Some p
         ∧ Project.dataSources p = Some (Workbench.dataSources wb)
         ∧ Workbench.dataSources (mount (Some (Project.id p)) result.2)
           = Workbench.dataSources wb)
  ∧ (∀ id,
       let result := handleDeleteSource id clock wb db in
       Workbench.dataSources result.1
       = filter (λ ds, DataSource.id ds ≠ id) (Workbench.dataSources wb)
       ∧ ∃ p,
           Workbench.project result.1 = Some p
           ∧ getProject (Project.id p) result.2 = Some p
           ∧ Project.dataSources p = Some (Workbench.dataSources wb)
           ∧ Workbench.dataSources (mount (Some (Project.id p)) result.2)
             = Workbench.dataSources wb).
Proof.
  intros Hcan. split.
  - intros source result. subst result. unfold handleConnectSource.
    destruct (saveProjectState_writes None clock wb _
                (can_save_sources clock wb db source Hcan)) as (p & -> & Hp).
    destruct (saved_fields None clock wb p Hp) as (_ & Hd & _ & _ & Hid).
    lazy beta iota zeta delta [fst snd].
    split; [done|]. split; [done|]. exists p.
    rewrite (mount_stored (Project.id p) p) by (done || apply lookup_insert_eq).
    unfold getProject. repeat split; [apply lookup_insert_eq | done |].
    by apply restore_dataSources.
  - intros id result. subst result. unfold handleDeleteSource.
    destruct (saveProjectState_writes None clock wb db Hcan) as (p & -> & Hp).
    destruct (saved_fields None clock wb p Hp) as (_ & Hd & _ & _ & Hid).
    lazy beta iota zeta delta [fst snd].
    split.
    { simpl. apply list_filter_iff. intros ds.
      destruct (String.eqb_spec (DataSource.id ds) id); simpl; split; done. }
    exists p.
    rewrite (mount_stored (Project.id p) p) by (done || apply lookup_insert_eq).
    unfold getProject. repeat split; [apply lookup_insert_eq | done |].
    by apply restore_dataSources.
Qed.

Lemma project_record_id_kept (image : option string) (clock : SaveClock.t)
    (wb : Workbench.state) (p : Project.t) :
  Workbench.project wb = Some p → Project.id p ≠ "" →
  Project.id (project_record image clock wb) = Project.id p.
Proof.
  intros Hp Hne. unfold project_record. cbn [Project.id]. rewrite Hp.
  unfold or_else at 1. cbn [fmap option_fmap option_map].
  by rewrite (proj2 (truthy_Some _) Hne).
Qed.

Lemma saveProjectState_update (image : option string) (clock : SaveClock.t)
    (wb : Workbench.state) (db : Db.t) (old : Project.t) :
  Workbench.project wb = Some old →
  saveProjectState image clock wb db
  = (Fulfilled (),
     with_saved (touch (SaveClock.now_put clock) (project_record image clock wb))
       (SaveClock.now_saved clock) wb,
     Db.mk
       (<[Project.id (project_record image clock wb)
          := touch (SaveClock.now_put clock) (project_record image clock wb)]>
          (Db.projects db))
       (Db.sources db)).
Proof. intros Hold. unfold saveProjectState. by rewrite Hold. Qed.

(** X23. After a first save that can write, any further save of the same
    editor fulfils and overwrites the same stored project: the id is kept,
    createdAt is kept when it is not 0, updatedAt is the time stamped by
    the store, the set of stored ids does not grow and no other project is
    touched. *)
Theorem save_again_overwrites (image1 image2 : option string)
    (clock1 clock2 : SaveClock.t) (wb : Workbench.state) (db : Db.t) :
  can_save clock1 wb db →
  let first := saveProjectState image1 clock1 wb db in
  let second := saveProjectState image2 clock2 first.1.2 first.2 in
  ∃ p1 p2,
    first.1.1 = Fulfilled () ∧ second.1.1 = Fulfilled ()
    ∧ Workbench.project first.1.2 = Some p1
    ∧ Workbench.project second.1.2 = Some p2
    ∧ Project.id p2 = Project.id p1
    ∧ (Project.createdAt p1 ≠ 0 → Project.createdAt p2 = Project.createdAt p1)
    ∧ Project.updatedAt p2 = SaveClock.now_put clock2
    ∧ getProject (Project.id p1) second.2 = Some p2
    ∧ dom (Db.projects second.2) = dom (Db.projects first.2)
    ∧ (∀ id, id ≠ Project.id p1 → getProject id second.2 = getProject id db).
Proof.
  intros Hcan first second. subst second first.
  destruct (saveProjectState_writes image1 clock1 wb db Hcan) as (p1 & -> & Hp1).
  destruct (saved_fields image1 clock1 wb p1 Hp1) as (_ & _ & _ & _ & Hid1).
  lazy beta iota zeta delta [fst snd].
  set (wb1 := with_saved p1 (SaveClock.now_saved clock1) wb).
  set (db1 := Db.mk (<[Project.id p1:=p1]> (Db.projects db)) (Db.sources db)).
  exists p1, (touch (SaveClock.now_put clock2) (project_record image2 clock2 wb1)).
  assert (Project.id (project_record image2 clock2 wb1) = Project.id p1) as Hid.
  { by apply project_record_id_kept. }
  rewrite (saveProjectState_update image2 clock2 wb1 db1 p1) by done.
  lazy beta iota zeta delta [fst snd]. rewrite Hid.
  set (p2 := touch (SaveClock.now_put clock2) (project_record image2 clock2 wb1)).
  assert (Project.id p2 = Project.id p1) as Hid2 by done.
  unfold getProject. rewrite Hid2.
  repeat split; try done.
  - intros Hc. apply Z.eqb_neq in Hc. subst p2. simpl. by rewrite Hc.
  - apply lookup_insert_eq.
  - subst db1. cbn [Db.projects]. by rewrite insert_insert_eq, !dom_insert_L.
  - intros id Hne. subst db1. cbn [Db.projects]. by rewrite !lookup_insert_ne.
Qed.


(** * Further properties of the overlay store *)

(** ** More on the z-order *)

Lemma misses_app_id (id : string) (l1 l2 : list Annotation.t) (a : Annotation.t) :
  NoDup (Annotation.id <$> (l1 ++ a :: l2)) → has_id id a = true →
  misses (has_id id) l1 ∧ misses (has_id id) l2.
Proof.
  intros Hnd Ha%has_id_true. rewrite fmap_app, fmap_cons in Hnd.
  apply NoDup_app in Hnd as (_ & Hdisj & [Hnot _]%NoDup_cons).
  split; apply misses_has_id; rewrite <- Ha.
  - intros Hin. apply (Hdisj _ Hin). left.
  - done.
Qed.

(** X11. On a list whose ids are pairwise distinct, and for an id that is
    not the id of the first annotation, moveBackward(id) followed by
    moveForward(id) gives back the list in its original order. *)
Theorem moveBackward_moveForward (id : string) (l : list Annotation.t) :
  NoDup (Annotation.id <$> l) →
  Annotation.id <$> head l ≠ Some id →
  moveForward id (moveBackward id l) = l.
Proof.
  intros Hnd Hfirst.
  destruct (first_match_split (has_id id) l)
    as [Hmiss | (l1 & a & l2 & -> & Hmiss & Ha)].
  - apply zorder_absent in Hmiss as (_ & _ & Hf & Hb). by rewrite Hb, Hf.
  - destruct l1 as [|c l1' _] using rev_ind.
    + exfalso. apply Hfirst. simpl. f_equal. by apply has_id_true.
    + rewrite (moveBackward_first id (l1' ++ [c]) l2 a Hmiss Ha c l1') by done.
      apply Forall_app in Hmiss as [Hl1' _].
      rewrite (moveForward_first id l1' (c :: l2) a Hl1' Ha c l2) by done.
      by rewrite <- app_assoc.
Qed.

(** X12. With distinct ids and an id that is present, bringToFront(id)
    leaves that annotation last and sendToBack(id) leaves it first; each
    of the two is idempotent, and whichever of the two is applied last
    decides the outcome. *)
Theorem zorder_extremes (id : string) (l : list Annotation.t) :
  NoDup (Annotation.id <$> l) → id ∈ Annotation.id <$> l →
  Annotation.id <$> last (bringToFront id l) = Some id
  ∧ Annotation.id <$> head (sendToBack id l) = Some id
  ∧ bringToFront id (bringToFront id l) = bringToFront id l
  ∧ sendToBack id (sendToBack id l) = sendToBack id l
  ∧ bringToFront id (sendToBack id l) = bringToFront id l
  ∧ sendToBack id (bringToFront id l) = sendToBack id l.
Proof.
  intros Hnd Hin.
  destruct (first_match_split (has_id id) l)
    as [Hmiss | (l1 & a & l2 & -> & Hmiss & Ha)].
  { by apply misses_has_id in Hmiss. }
  destruct (misses_app_id id l1 l2 a Hnd Ha) as [_ Hl2].
  assert (misses (has_id id) (l1 ++ l2)) as Hl12 by by apply Forall_app.
  pose proof (proj1 (has_id_true id a) Ha) as Hid.
  pose proof (bringToFront_first id (l1 ++ l2) [] a Hl12 Ha) as E1.
  pose proof (sendToBack_first id (l1 ++ l2) [] a Hl12 Ha) as E2.
  pose proof (bringToFront_first id [] (l1 ++ l2) a (Forall_nil_2 _) Ha) as E3.
  pose proof (sendToBack_first id [] (l1 ++ l2) a (Forall_nil_2 _) Ha) as E4.
  simpl in E1, E2, E3, E4. rewrite app_nil_r in E2.
  rewrite bringToFront_first, sendToBack_first by done.
  rewrite (app_assoc l1 l2 [a]), E1, E2, E3, E4.
  rewrite last_snoc. simpl. by rewrite Hid.
Qed.

(** ** Ids stay distinct *)

Lemma updateAnnotation_ids (id : string) (updates : AnnotationUpdates.t)
    (l : list Annotation.t) :
  AnnotationUpdates.id updates = None →
  Annotation.id <$> updateAnnotation id updates l = Annotation.id <$> l.
Proof.
  intros Hnone. unfold updateAnnotation. rewrite <- list_fmap_compose.
  apply list_fmap_ext. intros i a _. simpl.
  destruct (has_id id a); [|done]. simpl. by rewrite Hnone.
Qed.

Lemma committed_ids (st : Canvas.state) :
  Annotation.id <$> committed st = Annotation.id <$> Canvas.annotations st.
Proof.
  unfold committed.
  destruct (Canvas.isDragging st), (Canvas.localDragState st),
    (Canvas.selectedAnnotationId st) as [sel|]; try done.
  destruct (truthy (Some sel)); [|done].
  rewrite <- list_fmap_compose. apply list_fmap_ext. intros i a _. simpl.
  by destruct (has_id sel a).
Qed.

(** X14. What pointer-up commits for a drag in progress is what
    updateAnnotation(selected id, { x, y }) would produce from the live
    position: the commit changes nothing that such an update would not. *)
Theorem committed_is_update (e : PointerEvent.t) (st : Canvas.state)
    (live : LocalDrag.t) (sel : string) :
  Canvas.isDragging st = true → Canvas.localDragState st = Some live →
  Canvas.selectedAnnotationId st = Some sel → sel ≠ "" →
  Canvas.annotations (handlePointerUp e st)
  = updateAnnotation sel
      (position_update (LocalDrag.x live) (LocalDrag.y live))
      (Canvas.annotations st).
Proof.
  intros Hd Hl Hs Hne. simpl. rewrite (committed_live st live sel) by done.
  unfold updateAnnotation. apply list_fmap_ext. intros i a _. simpl.
  by destruct (has_id sel a).
Qed.

(** X13. Distinct ids stay distinct under every operation of the canvas
    that rewrites the annotation list: the four z-order operations,
    deleteAnnotation, updateAnnotation with an update that does not name
    the id field, every pointer gesture on a label, and a click that
    places a new label whose clock-drawn id is not yet in use. *)
Theorem ids_stay_distinct (st : Canvas.state) :
  NoDup (Annotation.id <$> Canvas.annotations st) →
  (∀ id,
     NoDup (Annotation.id <$> bringToFront id (Canvas.annotations st))
     ∧ NoDup (Annotation.id <$> sendToBack id (Canvas.annotations st))
     ∧ NoDup (Annotation.id <$> moveForward id (Canvas.annotations st))
     ∧ NoDup (Annotation.id <$> moveBackward id (Canvas.annotations st))
     ∧ NoDup (Annotation.id <$> Canvas.annotations (deleteAnnotation id st)))
  ∧ (∀ id updates,
       AnnotationUpdates.id updates = None →
       NoDup (Annotation.id <$> updateAnnotation id updates (Canvas.annotations st)))
  ∧ (∀ g, NoDup (Annotation.id <$> Canvas.annotations (dispatch g st)))
  ∧ (∀ e container now_id now_ts active sidebar,
       pretty now_id ∉ Annotation.id <$> Canvas.annotations st →
       NoDup (Annotation.id
                <$> Canvas.annotations
                      (CanvasUI.canvas
                         (handleImageClick e container now_id now_ts
                            (CanvasUI.mk st active sidebar))))).
Proof.
  intros Hnd. split; [|split; [|split]].
  - intros id. repeat split.
    + by rewrite bringToFront_Permutation.
    + by rewrite sendToBack_Permutation.
    + by rewrite moveForward_Permutation.
    + by rewrite moveBackward_Permutation.
    + simpl. eapply sublist_NoDup; [done|].
      apply fmap_sublist, sublist_filter.
  - intros id updates Hnone. by rewrite updateAnnotation_ids.
  - intros [e id container | e | e | e]; simpl.
    + unfold handlePointerDown.
      destruct (Canvas.activeTool st), container; try done.
      by destruct (List.find (has_id id) (Canvas.annotations st)).
    + by rewrite (proj1 (handlePointerMove_committed e st)).
    + by rewrite committed_ids.
    + by rewrite committed_ids.
  - intros e container now_id now_ts active sidebar Hfresh.
    unfold handleImageClick. simpl.
    destruct (Canvas.isDragging st); [done|].
    destruct (Canvas.activeTool st); simpl.
    + by destruct (truthy (Canvas.selectedAnnotationId st)).
    + destruct container; [|done]. simpl.
      rewrite fmap_app. apply NoDup_app. split; [done|]. split.
      * intros x Hx Hin. apply list_elem_of_singleton in Hin. by subst x.
      * apply NoDup_singleton.
    + by destruct container.
Qed.

(** ** The z-order in the exported bitmap *)
Lemma painted_texts_canvas (fillBackground : bool) (img : NaturalSize.t)
    (anns : list Annotation.t) (data : string) :
  painted_texts
    (HTMLCanvasElement.mk (NaturalSize.naturalWidth img)
       (NaturalSize.naturalHeight img)
       ((if fillBackground
         then [fillRect "#ffffff" 0 0
                 (inject_Z (NaturalSize.naturalWidth img))
                 (inject_Z (NaturalSize.naturalHeight img))]
         else [])
        ++ drawImage data 0 0
        :: (draw_annotation (NaturalSize.naturalWidth img)
              (NaturalSize.naturalHeight img) <$> anns)))
  = draw_annotation (NaturalSize.naturalWidth img)
      (NaturalSize.naturalHeight img) <$> anns.
Proof.
  unfold painted_texts. cbn [HTMLCanvasElement.painted].
  rewrite filter_app, filter_cons_False by (simpl; by intros [? ?]).
  rewrite (filter_all _ (draw_annotation _ _ <$> anns)).
  2:{ apply Forall_fmap, Forall_forall. intros x Hx. unfold compose. simpl.
      by eexists. }
  destruct fillBackground; [|done].
  by rewrite filter_cons_False by (simpl; by intros [? ?]).
Qed.

(** X15. With distinct ids, after bringToFront(id) the export paints the
    annotation of that id last, so it ends on top of every other label;
    after sendToBack(id) it is the first text painted, so it ends below
    them. *)
Theorem front_is_painted_last (id : string) (fillBackground : bool)
    (img : NaturalSize.t) (st : Canvas.state) (a : Annotation.t) :
  NoDup (Annotation.id <$> Canvas.annotations st) →
  a ∈ Canvas.annotations st → Annotation.id a = id →
  ∃ front back,
    generateCanvas fillBackground true (Some img)
      (set_annotations (bringToFront id (Canvas.annotations st)) st)
    = Fulfilled front
    ∧ last (HTMLCanvasElement.painted front)
      = Some (draw_annotation (NaturalSize.naturalWidth img)
                (NaturalSize.naturalHeight img) a)
    ∧ generateCanvas fillBackground true (Some img)
        (set_annotations (sendToBack id (Canvas.annotations st)) st)
      = Fulfilled back
    ∧ head (painted_texts back)
      = Some (draw_annotation (NaturalSize.naturalWidth img)
                (NaturalSize.naturalHeight img) a).
Proof.
  intros Hnd Hin Hid.
  destruct (first_match_split (has_id id) (Canvas.annotations st))
    as [Hmiss | (l1 & b & l2 & Heq & Hmiss & Hb)].
  { apply misses_has_id in Hmiss. exfalso. apply Hmiss.
    rewrite <- Hid. by apply list_elem_of_fmap_2. }
  assert (b = a) as ->.
  { eapply NoDup_same_id; [done | | done |].
    - rewrite Heq. apply elem_of_app. right. left.
    - apply has_id_true in Hb. congruence. }
  rewrite Heq, bringToFront_first, sendToBack_first by done.
  eexists _, _. split; [reflexivity|]. split; [|split; [reflexivity|]].
  - simpl. rewrite !fmap_app. simpl.
    rewrite (app_assoc _ _ [_]), app_comm_cons, app_assoc. apply last_snoc.
  - by rewrite painted_texts_canvas.
Qed.

(** ** Undo and redo *)

Lemma jump_restores (index : Z) (st : Editor.state) (entry : GeneratedImage.t) :
  at_index (Editor.history st) index = Some entry →
  Editor.style (handleJumpToHistory index st) = GeneratedImage.style entry
  ∧ Editor.level (handleJumpToHistory index st) = GeneratedImage.level entry.
Proof. intros Hentry. unfold handleJumpToHistory. by rewrite Hentry. Qed.

(** X19. Where undo is enabled and the cursor names an entry, undo followed
    by redo brings the cursor back and leaves the history alone; redo is
    enabled after the undo.  The style and level the editor then shows are
    those recorded in the entry at the cursor, whatever they were set to
    before the undo. *)
Theorem undo_then_redo (st : Editor.state) (entry : GeneratedImage.t) :
  canUndo st = true →
  at_index (Editor.history st) (Editor.currentIndex st) = Some entry →
  let st' := onRedo (onUndo st) in
  canRedo (onUndo st) = true
  ∧ Editor.currentIndex st' = Editor.currentIndex st
  ∧ Editor.history st' = Editor.history st
  ∧ Editor.style st' = GeneratedImage.style entry
  ∧ Editor.level st' = GeneratedImage.level entry.
Proof.
  intros Hundo Hentry. simpl. unfold onRedo, onUndo, canRedo.
  rewrite !jump_currentIndex, !jump_history.
  apply at_index_Some in Hentry as Hpos.
  replace (Editor.currentIndex st + 1 - 1) with (Editor.currentIndex st) by lia.
  split; [apply Z.ltb_lt; lia|]. split; [done|]. split; [done|].
  apply jump_restores. by rewrite jump_history.
Qed.

Lemma undo_then_redo_witness :
  let v1 := GeneratedImage.mk "1" "v1" "first" 1 Operational ModernSaaS in
  let v2 := GeneratedImage.mk "2" "v2" "second" 2 Strategic Minimalist in
  let st := set_history [v2; v1] 0 initial_editor in
  Editor.currentIndex (onRedo (onUndo st)) = 0
  ∧ Editor.style (onRedo (onUndo st)) = Minimalist.
Proof.
  destruct (undo_then_redo
              (set_history
                 [GeneratedImage.mk "2" "v2" "second" 2 Strategic Minimalist;
                  GeneratedImage.mk "1" "v1" "first" 1 Operational ModernSaaS]
                 0 initial_editor)
              (GeneratedImage.mk "2" "v2" "second" 2 Strategic Minimalist))
    as (_ & Hc & _ & Hs & _); [reflexivity | reflexivity |].
  by split.
Defined.

(** ** Worked instances *)

Lemma snap_nearest_witness : (snap 20 == 20)%Q.
Proof.
  apply (snap_nearest 20). exists 2. reflexivity.
Defined.

Lemma deleteAnnotation_removes_witness :
  let st := initial_canvas sample_image
              [newAnnotation "a" 10 10; newAnnotation "b" 20 20] [] in
  newAnnotation "b" 20 20 ∈ Canvas.annotations (deleteAnnotation "a" st).
Proof.
  apply (deleteAnnotation_removes "a"
           (initial_canvas sample_image
              [newAnnotation "a" 10 10; newAnnotation "b" 20 20] [])).
  - apply elem_of_cons. right. apply elem_of_cons. by left.
  - discriminate.
Defined.


Lemma moveBackward_moveForward_witness :
  moveForward "b"
    (moveBackward "b"
       [newAnnotation "a" 10 10; newAnnotation "b" 20 20; newAnnotation "c" 30 30])
  = [newAnnotation "a" 10 10; newAnnotation "b" 20 20; newAnnotation "c" 30 30].
Proof.
  apply moveBackward_moveForward; [compute_done | discriminate].
Defined.

Lemma zorder_extremes_witness :
  let l := [newAnnotation "a" 10 10; newAnnotation "b" 20 20;
            newAnnotation "c" 30 30] in
  bringToFront "a" (sendToBack "a" l) = bringToFront "a" l.
Proof.
  apply (zorder_extremes "a"
           [newAnnotation "a" 10 10; newAnnotation "b" 20 20;
            newAnnotation "c" 30 30]); compute_done.
Defined.

Lemma ids_stay_distinct_witness :
  NoDup (Annotation.id
           <$> moveForward "a"
                 [newAnnotation "a" 10 10; newAnnotation "b" 20 20]).
Proof.
  apply (ids_stay_distinct
           (initial_canvas sample_image
              [newAnnotation "a" 10 10; newAnnotation "b" 20 20] [])).
  compute_done.
Defined.

Lemma committed_is_update_witness :
  let st :=
    dragged (Rect.mk 1000 500 0 0) (newAnnotation "a" 10 10)
      (PointerEvent.mk 100 100 1) (PointerEvent.mk 150 100 1) in
  ∃ live,
    Canvas.localDragState st = Some live
    ∧ Canvas.annotations (handlePointerUp (PointerEvent.mk 150 100 1) st)
      = updateAnnotation "a"
          (position_update (LocalDrag.x live) (LocalDrag.y live))
          (Canvas.annotations st).
Proof.
  eexists. split; [reflexivity|].
  apply committed_is_update; [reflexivity.. | discriminate].
Defined.

Lemma front_is_painted_last_witness :
  let a := newAnnotation "a" 10 10 in
  let st := initial_canvas sample_image [a; newAnnotation "b" 20 20] [] in
  ∃ front,
    generateCanvas false true (Some (NaturalSize.mk 1600 900))
      (set_annotations (bringToFront "a" (Canvas.annotations st)) st)
    = Fulfilled front
    ∧ last (HTMLCanvasElement.painted front)
      = Some (draw_annotation 1600 900 a).
Proof.
  destruct (front_is_painted_last "a" false (NaturalSize.mk 1600 900)
              (initial_canvas sample_image
                 [newAnnotation "a" 10 10; newAnnotation "b" 20 20] [])
              (newAnnotation "a" 10 10))
    as (front & _ & Hf & Hl & _);
    [compute_done | by apply elem_of_cons; left | reflexivity |].
  by exists front.
Defined.

Lemma failures_keep_history_witness :
  let st := set_history [sample_image] 0
              (set_objective "Sales by region" initial_editor) in
  Editor.history
    (handleGenerate (λ s, s) (Threw (JsError.mk None)) Never Never 1 1 st)
  = [sample_image].
Proof.
  apply (proj1 (failures_keep_history (λ s, s)
                  (set_history [sample_image] 0
                     (set_objective "Sales by region" initial_editor))
                  (JsError.mk None) Never 1 1)
           (Threw (JsError.mk None)) Never);
    [reflexivity | discriminate | by left].
Defined.

Lemma loading_cleared_iff_witness :
  let st := set_objective "Sales by region" initial_editor in
  Editor.isLoading
    (handleGenerate (λ s, s) (Fulfilled sample_analysis) (Fulfilled "v1")
       (Fulfilled ()) 1 1 st)
  = false.
Proof.
  apply (proj1 (loading_cleared_iff (λ s, s)
                  (set_objective "Sales by region" initial_editor) 1 1)
           (Fulfilled sample_analysis) (Fulfilled "v1") (Fulfilled ()));
    [reflexivity | discriminate | discriminate].
Defined.

Lemma cursor_invariant_witness :
  let db := (saveProjectState None sample_clock sample_workbench empty_db).2 in
  let st :=
    run (λ s, s)
      [Generate (Fulfilled sample_analysis) (Fulfilled "v2") (Fulfilled ()) 2 2;
       Undo; Jump 0; Redo]
      (Workbench.editor (mount (Some "1700000000010") db)) in
  is_Some (at_index (Editor.history st) (Editor.currentIndex st)).
Proof.
  apply (cursor_invariant (λ s, s) (Some "1700000000010")
           (saveProjectState None sample_clock sample_workbench empty_db).2
           [Generate (Fulfilled sample_analysis) (Fulfilled "v2")
              (Fulfilled ()) 2 2;
            Undo; Jump 0; Redo]).
  vm_compute. discriminate.
Defined.

Lemma save_then_reopen_witness :
  ∃ p db',
    saveProjectState None sample_clock sample_workbench empty_db
    = (Fulfilled (),
       with_saved p (SaveClock.now_saved sample_clock) sample_workbench, db')
    ∧ content (mount (Some (Project.id p)) db') = content sample_workbench.
Proof.
  destruct (save_then_reopen sample_clock sample_workbench empty_db)
    as (p & db' & Hsave & _ & _ & Hcontent & _); [by intros _|].
  by exists p, db'.
Defined.

Lemma generate_then_reopen_witness :
  let result :=
    generateAndSave (λ s, s) (Fulfilled sample_analysis) (Fulfilled "v2")
      sample_clock 2 2 sample_workbench empty_db in
  ∃ entry p,
    Editor.history (Workbench.editor result.1) = [entry; sample_image]
    ∧ Workbench.project result.1 = Some p
    ∧ Editor.history (Workbench.editor (mount (Some (Project.id p)) result.2))
      = [sample_image].
Proof.
  destruct (generate_then_reopen (λ s, s) sample_analysis "v2" sample_clock
              2 2 sample_workbench empty_db)
    as (entry & p & Hh & _ & Hp & _ & _ & _ & Hre & _);
    [reflexivity | discriminate | discriminate | by intros _ |].
  exists entry, p. split; [exact Hh|]. split; [exact Hp|].
  apply Hre. discriminate.
Defined.

Lemma sources_then_reopen_witness :
  let result := handleDeleteSource "1700000000020" sample_clock
                  sample_workbench empty_db in
  Workbench.dataSources result.1 = []
  ∧ ∃ p,
      Workbench.project result.1 = Some p
      ∧ Workbench.dataSources (mount (Some (Project.id p)) result.2)
        = [sample_source].
Proof.
  destruct (proj2 (sources_then_reopen sample_clock sample_workbench empty_db
                     (λ _, eq_refl)) "1700000000020")
    as (Hd & p & Hp & _ & _ & Hre).
  split; [exact Hd|]. by exists p.
Defined.

Lemma save_again_overwrites_witness :
  let first := saveProjectState None sample_clock sample_workbench empty_db in
  let second := saveProjectState (Some "v2") sample_clock first.1.2 first.2 in
  second.1.1 = Fulfilled ()
  ∧ dom (Db.projects second.2) = dom (Db.projects first.2).
Proof.
  destruct (save_again_overwrites None (Some "v2") sample_clock sample_clock
              sample_workbench empty_db)
    as (p1 & p2 & _ & H2 & _ & _ & _ & _ & _ & _ & Hdom & _); [by intros _|].
  by split.
Defined.


(** * Properties of the generation calls *)

Lemma substring_all (s : string) : String.substring 0 (String.length s) s = s.
Proof. induction s as [|c s IH]; simpl; [done | by rewrite IH]. Qed.

Lemma svg_url_kind (base64 : string) : isSvg (SVG_PREFIX +:+ base64) = true.
Proof. unfold isSvg, SVG_PREFIX. simpl. by destruct base64. Qed.

Lemma prefix_app (p s : string) : String.prefix p (p +:+ s) = true.
Proof.
  induction p as [|c p IH]; [by destruct s|].
  change (String c p +:+ s) with (String c (p +:+ s)). simpl.
  by destruct (ascii_dec c c).
Qed.

Lemma length_app_string (p s : string) :
  String.length (p +:+ s) = (String.length p + String.length s)%nat.
Proof.
  induction p as [|c p IH]; [done|].
  change (String c p +:+ s) with (String c (p +:+ s)). simpl. by rewrite IH.
Qed.

Lemma substring_app (p s : string) :
  String.substring (String.length p) (String.length s) (p +:+ s) = s.
Proof.
  induction p as [|c p IH]; [apply substring_all|].
  change (String c p +:+ s) with (String c (p +:+ s)). by simpl.
Qed.

Lemma drop_prefix_app (p s : string) : drop_prefix p (p +:+ s) = Some s.
Proof.
  unfold drop_prefix. rewrite prefix_app, length_app_string.
  replace (String.length p + String.length s - String.length p)%nat
    with (String.length s) by lia.
  by rewrite substring_app.
Qed.

Lemma png_url_kind (data : string) :
  isSvg (PNG_PREFIX +:+ data) = false
  ∧ cleanBase64 (PNG_PREFIX +:+ data) = data.
Proof.
  split; [done|].
  unfold cleanBase64, PNG_PREFIX. by rewrite drop_prefix_app.
Qed.

Lemma raster_result_kind (failure : string)
    (reply : Settled (option (list Part.t))) (url : string) :
  raster_result failure reply = Fulfilled url →
  ∃ data, url = PNG_PREFIX +:+ data ∧ data ≠ "".
Proof.
  unfold raster_result. destruct reply as [parts| |]; [|done..].
  destruct (first_inline_image (default [] parts)) as [data|] eqn:Hfirst;
    [|done].
  intros [= <-]. exists data. split; [done|].
  revert Hfirst. generalize (default [] parts). intros l.
  induction l as [|part l IH]; simpl; [done|].
  destruct (Part.inlineData part) as [inline|]; [|done].
  destruct (truthy (InlineData.data inline)) eqn:Ht; [|done].
  intros Hd. rewrite Hd in Ht. by apply truthy_Some.
Qed.

(** X25. Whatever generateDashboardImage fulfils with is a data URL of one
    of two kinds: an SVG one, recognised as such by the canvas and by the
    edit call, only when the text reply held an SVG that could be
    encoded; otherwise a PNG one, from which the raster edit strips
    exactly the prefix that was added.  A rejected, empty or SVG-less text
    reply never fails the generation: if the image reply carries an image
    the call fulfils.  When it rejects, it is with the image call's own
    error or with "Dashboard generation failed". *)
Theorem generated_image_kind (svgMatch : string → option string)
    (encodeBase64 : string → option string)
    (svgReply : Settled (option string))
    (rasterReply : Settled (option (list Part.t))) :
  let result := generateDashboardImage svgMatch encodeBase64 svgReply rasterReply in
  (∀ url, result = Fulfilled url →
     (isSvg url = true
      ∧ ∃ text code base64,
          svgReply = Fulfilled (Some text) ∧ svgMatch text = Some code
          ∧ encodeBase64 code = Some base64 ∧ url = SVG_PREFIX +:+ base64)
     ∨ (isSvg url = false
        ∧ ∃ data, url = PNG_PREFIX +:+ data ∧ data ≠ ""
                  ∧ cleanBase64 url = data))
  ∧ (∀ parts data,
       svgReply ≠ Never → rasterReply = Fulfilled (Some parts) →
       first_inline_image parts = Some data →
       ∃ url, result = Fulfilled url)
  ∧ (∀ err, result = Threw err →
       rasterReply = Threw err
       ∨ err = JsError.mk (Some "Dashboard generation failed")).
Proof.
  simpl. unfold generateDashboardImage. split; [|split].
  - intros url Hurl.
    assert (raster_result "Dashboard generation failed" rasterReply
            = Fulfilled url →
            isSvg url = false
            ∧ ∃ data, url = PNG_PREFIX +:+ data ∧ data ≠ ""
                      ∧ cleanBase64 url = data) as Hraster.
    { intros (data & -> & Hne)%raster_result_kind.
      destruct (png_url_kind data) as [Hk Hc]. split; [done|]. by exists data. }
    destruct svgReply as [text| |]; [|by right; apply Hraster|done].
    destruct (svg_from_reply svgMatch encodeBase64 text) as [svg|] eqn:Hsvg;
      [|by right; apply Hraster].
    injection Hurl as <-. left. unfold svg_from_reply in Hsvg.
    destruct (truthy text); [|done]. destruct text as [t|]; [|done]. simpl in Hsvg.
    destruct (svgMatch t) as [code|] eqn:Hm; [|done]. simpl in Hsvg.
    destruct (encodeBase64 code) as [b|] eqn:He; [|done]. simpl in Hsvg.
    injection Hsvg as <-. split; [apply svg_url_kind|]. by exists t, code, b.
  - intros parts data Hsettles -> Hfirst. unfold raster_result. simpl.
    rewrite Hfirst.
    destruct svgReply as [text| |].
    + destruct (svg_from_reply svgMatch encodeBase64 text); by eexists.
    + by eexists.
    + by destruct Hsettles.
  - intros err Herr.
    assert (raster_result "Dashboard generation failed" rasterReply = Threw err →
            rasterReply = Threw err
            ∨ err = JsError.mk (Some "Dashboard generation failed")) as Hraster.
    { unfold raster_result.
      destruct rasterReply as [parts|e|]; [|by intros [= ->]; left|done].
      destruct (first_inline_image (default [] parts)); [done|].
      intros [= <-]. by right. }
    destruct svgReply as [text| |]; [|by apply Hraster|done].
    destruct (svg_from_reply svgMatch encodeBase64 text); [done|].
    by apply Hraster.
Qed.

Lemma prefix_inv (p s : string) :
  String.prefix p s = true → ∃ rest, s = p +:+ rest.
Proof.
  revert s. induction p as [|c p IH]; intros s; [by exists s|].
  destruct s as [|d s]; simpl; [done|].
  destruct (ascii_dec c d) as [->|]; [|done].
  intros [rest ->]%IH. by exists rest.
Qed.

Lemma cleanBase64_svg (imageBase64 : string) :
  isSvg imageBase64 = true → cleanBase64 imageBase64 = imageBase64.
Proof.
  intros [rest ->]%prefix_inv. done.
Qed.

(** X26. editDashboardImage on a raster image only ever takes the raster
    path and fulfils only with raster images.  On an SVG image a rejected
    text call fails the edit with "Failed to edit SVG dashboard." and is
    not retried on the raster path; a text reply that is empty or holds
    no SVG does fall through to the raster path, the only way an SVG
    revision can come back as a raster one; and the prefix stripping of
    the raster path leaves an SVG data URL as it is. *)
Theorem edited_image_kind (svgMatch : string → option string)
    (encodeBase64 : string → option string)
    (decodeBase64 : option string → option string)
    (imageBase64 : string) (svgReply : Settled (option string))
    (rasterReply : Settled (option (list Part.t))) :
  let result :=
    editDashboardImage svgMatch encodeBase64 decodeBase64 imageBase64
      svgReply rasterReply in
  (isSvg imageBase64 = false →
   result = raster_result "Edit failed" rasterReply
   ∧ ∀ url, result = Fulfilled url → isSvg url = false)
  ∧ (isSvg imageBase64 = true →
     (∀ err, svgReply = Threw err →
        result = Threw (JsError.mk (Some "Failed to edit SVG dashboard.")))
     ∧ (∀ url, result = Fulfilled url →
          isSvg url = true
          ∨ (isSvg url = false
             ∧ ∃ text, svgReply = Fulfilled text
                       ∧ (truthy text = false ∨ text ≫= svgMatch = None)))
     ∧ cleanBase64 imageBase64 = imageBase64).
Proof.
  simpl. unfold editDashboardImage. split.
  - intros ->. split; [done|].
    intros url (data & -> & _)%raster_result_kind. apply png_url_kind.
  - intros Hsvg. rewrite Hsvg. split; [|split; [|by apply cleanBase64_svg]].
    + intros err ->. by destruct (decodeBase64 _).
    + intros url Hurl.
      destruct (decodeBase64 _); [|done].
      destruct svgReply as [text| |]; [|done..].
      destruct (truthy text) eqn:Ht.
      * destruct (text ≫= svgMatch) as [code|] eqn:Hm.
        -- destruct (encodeBase64 code); [|done].
           injection Hurl as <-. left. apply svg_url_kind.
        -- right. apply raster_result_kind in Hurl as (data & -> & _).
           split; [apply png_url_kind|]. exists text. split; [done | by right].
      * right. apply raster_result_kind in Hurl as (data & -> & _).
        split; [apply png_url_kind|]. exists text. split; [done | by left].
Qed.

Lemma generated_image_kind_witness :
  ∃ url,
    generateDashboardImage (λ _, None) (λ s, Some s)
      (Threw (JsError.mk (Some "quota")))
      (Fulfilled
         (Some [Part.mk (Some "caption") None;
                Part.mk None (Some (InlineData.mk (Some "image/png")
                                      (Some "iVBORw0KGgo=")))]))
    = Fulfilled url.
Proof.
  apply (proj1 (proj2
           (generated_image_kind (λ _, None) (λ s, Some s)
              (Threw (JsError.mk (Some "quota")))
              (Fulfilled
                 (Some [Part.mk (Some "caption") None;
                        Part.mk None (Some (InlineData.mk (Some "image/png")
                                              (Some "iVBORw0KGgo=")))]))))
           [Part.mk (Some "caption") None;
            Part.mk None (Some (InlineData.mk (Some "image/png")
                                  (Some "iVBORw0KGgo=")))]
           "iVBORw0KGgo=");
    [discriminate | reflexivity | reflexivity].
Defined.

Lemma edited_image_kind_witness :
  editDashboardImage (λ _, None) (λ s, Some s) (λ s, s)
    "data:image/png;base64,iVBORw0KGgo=" Never (Fulfilled None)
  = raster_result "Edit failed" (Fulfilled None).
Proof.
  apply (proj1 (edited_image_kind (λ _, None) (λ s, Some s) (λ s, s)
                  "data:image/png;base64,iVBORw0KGgo=" Never (Fulfilled None))).
  reflexivity.
Defined.

(** * Deleting a stored project *)

(** X27. Deleting a project and opening the editor on its id afterwards
    gives the editor of a new project with nothing restored and no error,
    though without the data-source dialog a new project opens with; every
    other stored project opens as before; and the id is free again:
    createProject, which rejects with a constraint error and writes
    nothing while the id is stored, fulfils on it after the deletion. *)
Theorem delete_then_reopen (id : string) (db : Db.t) :
  id ≠ "" →
  mount (Some id) (deleteProject id db) = fresh_workbench (Some id)
  ∧ Workbench.showDataModal (mount (Some id) (deleteProject id db)) = false
  ∧ Workbench.showDataModal (mount None (deleteProject id db)) = true
  ∧ (∀ other, other ≠ id →
       mount (Some other) (deleteProject id db) = mount (Some other) db)
  ∧ (∀ p, Project.id p = id →
       (is_Some (getProject id db) →
        createProject p db = (Threw ConstraintError, db))
       ∧ (createProject p (deleteProject id db)).1 = Fulfilled p
       ∧ getProject id (createProject p (deleteProject id db)).2 = Some p).
Proof.
  intros Hne. apply String.eqb_neq in Hne.
  assert (Hgone : getProject id (deleteProject id db) = None).
  { unfold getProject, deleteProject. simpl. apply lookup_delete_eq. }
  assert (Hmount : mount (Some id) (deleteProject id db)
                   = fresh_workbench (Some id)).
  { unfold mount, loadProject. by rewrite Hne, Hgone. }
  split; [exact Hmount|]. split; [by rewrite Hmount|]. split; [done|].
  split.
  - intros other Hother. unfold mount, loadProject, getProject, deleteProject.
    simpl. by rewrite lookup_delete_ne.
  - intros p Hp. split; [|split].
    + intros [q Hq]. unfold createProject, getProject in *.
      by rewrite Hp, Hq.
    + unfold createProject. rewrite Hp.
      unfold getProject in Hgone. by rewrite Hgone.
    + unfold createProject. rewrite Hp.
      unfold getProject in Hgone. rewrite Hgone. simpl.
      unfold getProject. simpl. by rewrite lookup_insert_eq.
Qed.

Lemma delete_then_reopen_witness :
  let db := (saveProjectState None sample_clock sample_workbench empty_db).2 in
  getProject "1700000000010" db ≠ None
  ∧ mount (Some "1700000000010") (deleteProject "1700000000010" db)
    = fresh_workbench (Some "1700000000010").
Proof.
  split; [vm_compute; discriminate|].
  apply (proj1 (delete_then_reopen "1700000000010"
                  (saveProjectState None sample_clock sample_workbench
                     empty_db).2 ltac:(discriminate))).
Defined.
